(** * Signal functions of mpmath: square, triangle and sawtooth waves,
      the unit triangle pulse and the sigmoid

    A shallow embedding of [mpmath/functions/signals.py].

    Numbers.  The Python functions accept ints, floats and [mpf] values.
    The development has two layers.

    - The first takes the arguments as numbers of the context, reals ([R]),
      with exact arithmetic.  Rounding to the working precision of the
      context is outside this layer.  It carries the pulse, the sigmoid and
      the zero-period error of the three waves.

    - The second, [Host], takes the arguments as Python ints and floats, as
      every docstring example passes them.  The three waves divide the time
      by the period with Python's own [/] before any method of the context
      sees the value, so this quotient is an IEEE binary64 number: it is
      rounded to 53 bits whatever the precision of the context, and it can
      overflow.  [Host] evaluates these operators on [Z] and on binary64
      floats, and hands the result to the exact context.

    Effects.  A call runs in the state of the interpreter and either returns
    a value or raises an exception; the state survives a raise.  A call is
    therefore a function from the state before to an outcome and the state
    after. *)

From Stdlib Require Import Reals ZArith Bool Lra Lia.
From Stdlib Require Import SpecFloat.

Local Open Scope R_scope.

(** ** Outcomes and the call monad *)

Inductive exn : Type :=
| ZeroDivisionError
| OverflowError.

Inductive outcome (X : Type) : Type :=
| Return (x : X)
| Raise (e : exn).

Arguments Return {X} x.
Arguments Raise {X} e.

Definition M (St X : Type) : Type := St -> outcome X * St.

Definition ret {St X : Type} (x : X) : M St X :=
  fun s => (Return x, s).

Definition raise {St X : Type} (e : exn) : M St X :=
  fun s => (Raise e, s).

Definition bind {St X Y : Type} (m : M St X) (k : X -> M St Y) : M St Y :=
  fun s =>
    match m s with
    | (Return x, s') => k x s'
    | (Raise e, s') => (Raise e, s')
    end.

Declare Scope call_scope.
Delimit Scope call_scope with call.
Notation "x <- m ;; k" := (bind m (fun x => k))
  (at level 61, m at next level, right associativity) : call_scope.
Local Open Scope call_scope.

(** ** Python's operators on numbers *)

(** [x / y]: true division; a zero divisor raises, for ints, floats and
    [mpf] values alike. *)
Definition truediv {St : Type} (x y : R) : M St R :=
  if Req_dec_T y 0 then raise ZeroDivisionError else ret (x / y).

(** [x ** n] for an integer-valued exponent: the product of [n] copies of
    [x], inverted when [n] is negative. *)
Definition pow_int (x : R) (n : Z) : R := powerRZ x n.

(** [x <= y] and [x >= y] as the booleans Python's [if] tests. *)
Definition le_b (x y : R) : bool := if Rle_dec x y then true else false.
Definition ge_b (x y : R) : bool := if Rge_dec x y then true else false.

(** ** The numeric context

    [ctx] is an object with methods; the module calls four of them.  Their
    code lives in the context classes, not in this module, so a context is a
    record of four calls.  [floor] returns an integer-valued number, typed
    here as an integer. *)

Module Ctx.
Record t (St : Type) : Type := mk {
  floor : R -> M St Z;
  frac : R -> M St R;
  fabs : R -> M St R;
  exp : R -> M St R
}.
Arguments mk {St}.
Arguments floor {St}.
Arguments frac {St}.
Arguments fabs {St}.
Arguments exp {St}.
End Ctx.

(** The fractional part, [x - floor(x)]. *)
Definition Rfrac (x : R) : R := x - IZR (Zfloor x).

(** Modelled from the spec: the arbitrary-precision context is not part of
    the module.  The spec gives its four primitives as floor(x),
    frac(x) = x - floor(x), abs(x) and exp(x), correct at the working
    precision and leaving the context as it was; here they are the exact
    functions on the reals. *)
Definition exact (St : Type) : Ctx.t St :=
  Ctx.mk
    (fun x => ret (Zfloor x))
    (fun x => ret (Rfrac x))
    (fun x => ret (Rabs x))
    (fun x => ret (Rtrigo_def.exp x)).

(** ** The five functions

    Each definition follows its Python body line by line.  The keyword
    defaults [amplitude=1] and [period=1] are filled in by the caller; the
    functions below take every argument. *)

Section Signals.

Context {St : Type}.

Definition squarew (ctx : Ctx.t St) (t amplitude period : R) : M St R :=
  let P := period in
  let A := amplitude in
  q <- truediv (2 * t) P ;;
  n <- Ctx.floor ctx q ;;
  ret (A * pow_int (-1) n).

Definition trianglew (ctx : Ctx.t St) (t amplitude period : R) : M St R :=
  let A := amplitude in
  let P := period in
  q <- truediv t P ;;
  f <- Ctx.frac ctx (q + 0.25) ;;
  a <- Ctx.fabs ctx (1 - 2 * f) ;;
  ret (2 * A * (0.5 - a)).

Definition sawtoothw (ctx : Ctx.t St) (t amplitude period : R) : M St R :=
  let A := amplitude in
  let P := period in
  q <- truediv t P ;;
  f <- Ctx.frac ctx q ;;
  ret (A * f).

Definition unit_triangle (t amplitude : R) : M St R :=
  let A := amplitude in
  if le_b t (-1) || ge_b t 1 then ret 0
  else ret (A * (- Rabs t + 1)).

Definition sigmoidw (ctx : Ctx.t St) (t amplitude : R) : M St R :=
  let A := amplitude in
  e <- Ctx.exp ctx (- t) ;;
  truediv A (1 + e).

End Signals.

(** ** The three waves on Python ints and floats *)

Module Host.

(** A Python number: an int of any size or a float, an IEEE binary64 number
    with its zeros, infinities and NaN. *)
Inductive num : Type :=
| Int (z : Z)
| Float (f : spec_float).

Definition prec : Z := 53.
Definition emax : Z := 1024.

(** An int as an unrounded binary number. *)
Definition unrounded (z : Z) : spec_float :=
  match z with
  | Z0 => S754_zero false
  | Zpos p => S754_finite false p 0
  | Zneg p => S754_finite true p 0
  end.

Definition is_zero (f : spec_float) : bool :=
  match f with S754_zero _ => true | _ => false end.

Definition is_infinite (f : spec_float) : bool :=
  match f with S754_infinity _ => true | _ => false end.

(** [float(z)]: the nearest float, ties to even; an int beyond the range of
    the floats raises. *)
Definition to_float (x : num) : outcome spec_float :=
  match x with
  | Float f => Return f
  | Int z =>
      let f := binary_normalize prec emax z 0 false in
      if is_infinite f then Raise OverflowError else Return f
  end.

(** [x * y]: exact on two ints; otherwise both operands become floats and
    the product is rounded, an overflow giving an infinity. *)
Definition mul (x y : num) : outcome num :=
  match x, y with
  | Int a, Int b => Return (Int (a * b))
  | _, _ =>
      match to_float x with
      | Raise e => Raise e
      | Return a =>
          match to_float y with
          | Raise e => Raise e
          | Return b => Return (Float (SFmul prec emax a b))
          end
      end
  end.

(** [x / y]: always a float.  On two ints it is the quotient of the ints
    rounded once; a zero divisor raises [ZeroDivisionError], a quotient
    beyond the range of the floats raises [OverflowError].  Otherwise both
    operands become floats first; a zero divisor raises, and an overflow of
    the quotient gives an infinity. *)
Definition div (x y : num) : outcome spec_float :=
  match x, y with
  | Int a, Int b =>
      if (b =? 0)%Z then Raise ZeroDivisionError
      else
        let q := SFdiv prec emax (unrounded a) (unrounded b) in
        if is_infinite q then Raise OverflowError else Return q
  | _, _ =>
      match to_float x with
      | Raise e => Raise e
      | Return a =>
          match to_float y with
          | Raise e => Raise e
          | Return b =>
              if is_zero b then Raise ZeroDivisionError
              else Return (SFdiv prec emax a b)
          end
      end
  end.

(** [x + y] on two floats. *)
Definition add (x y : spec_float) : spec_float := SFadd prec emax x y.

(** The float nearest to [m * 2^e]: [binary 1 (-1)] is [0.5],
    [binary 3 (-1)] is [1.5], [binary 1 (-1074)] is [5e-324]. *)
Definition binary (m e : Z) : spec_float := binary_normalize prec emax m e false.

(** The float literal [0.25]. *)
Definition quarter : spec_float := S754_finite false 4503599627370496 (-54).

(** The sub-expression [2*t/P] of the square wave. *)
Definition quotient2 (t P : num) : outcome spec_float :=
  match mul (Int 2) t with
  | Return p => div p P
  | Raise e => Raise e
  end.

(** The sub-expression [t/P + 0.25] of the triangle wave. *)
Definition phase (t P : num) : outcome spec_float :=
  match div t P with
  | Return q => Return (add q quarter)
  | Raise e => Raise e
  end.

(** Modelled from the spec: a number of the context, which is not part of
    the module.  It is a real; the spec is silent on the infinities and NaN
    that mpmath's numbers also have, and they are kept apart here.  The
    complex NaN that mpmath returns for [(-1) ** inf] is [Nan] too. *)
Inductive ext (X : Type) : Type :=
| Fin (x : X)
| Infty (neg : bool)
| Nan.

Arguments Fin {X} x.
Arguments Infty {X} neg.
Arguments Nan {X}.

Definition xreal : Type := ext R.

(** The real number [(-1)^s m 2^e]. *)
Definition F2R (s : bool) (m : positive) (e : Z) : R :=
  match e with
  | Zneg p => IZR (cond_Zopp s (Zpos m)) / IZR (Z.pow_pos 2 p)
  | _ => IZR (cond_Zopp s (Zpos m) * 2 ^ e)
  end.

(** Converting a float or an int to a number of the context is exact. *)
Definition of_float (f : spec_float) : xreal :=
  match f with
  | S754_zero _ => Fin 0
  | S754_infinity s => Infty s
  | S754_nan => Nan
  | S754_finite s m e => Fin (F2R s m e)
  end.

Definition of_num (x : num) : xreal :=
  match x with
  | Int z => Fin (IZR z)
  | Float f => of_float f
  end.

Definition negative (x : R) : bool := if Rlt_dec x 0 then true else false.

(** Modelled from the spec: the arithmetic of the context on its own
    numbers, exact on the reals; zero times an infinity and the difference
    of equal infinities are NaN. *)
Definition xmul (a b : xreal) : xreal :=
  match a, b with
  | Nan, _ | _, Nan => Nan
  | Fin x, Fin y => Fin (x * y)
  | Fin x, Infty s | Infty s, Fin x =>
      if Req_dec_T x 0 then Nan else Infty (xorb (negative x) s)
  | Infty s, Infty s' => Infty (xorb s s')
  end.

Definition xsub (a b : xreal) : xreal :=
  match a, b with
  | Nan, _ | _, Nan => Nan
  | Fin x, Fin y => Fin (x - y)
  | Fin _, Infty s => Infty (negb s)
  | Infty s, Fin _ => Infty s
  | Infty s, Infty s' => if Bool.eqb s s' then Nan else Infty s
  end.

(** Modelled from the spec: [(-1) ** n] for the result [n] of [floor], a
    power taken by the context.  It is [1] or [-1] on an integer; on an
    infinity or NaN mpmath falls back on complex arithmetic and returns a
    complex NaN. *)
Definition pow_neg1 (n : ext Z) : xreal :=
  match n with
  | Fin k => Fin (pow_int (-1) k)
  | _ => Nan
  end.

Section Calls.

Context {St : Type}.

(** A Python operator inside a call: it leaves the state alone. *)
Definition host {X : Type} (o : outcome X) : M St X :=
  fun s => (o, s).

(** Modelled from the spec: the methods of the context on a converted
    argument.  On a real they are the methods of [ctx]; the floor of an
    infinity is that infinity, the fractional part of an infinity is NaN,
    the absolute value of an infinity is the positive one, and NaN gives
    NaN. *)
Definition floor (ctx : Ctx.t St) (x : xreal) : M St (ext Z) :=
  match x with
  | Fin r => n <- Ctx.floor ctx r ;; ret (Fin n)
  | Infty s => ret (Infty s)
  | Nan => ret Nan
  end.

Definition frac (ctx : Ctx.t St) (x : xreal) : M St xreal :=
  match x with
  | Fin r => f <- Ctx.frac ctx r ;; ret (Fin f)
  | _ => ret Nan
  end.

Definition fabs (ctx : Ctx.t St) (x : xreal) : M St xreal :=
  match x with
  | Fin r => a <- Ctx.fabs ctx r ;; ret (Fin a)
  | Infty _ => ret (Infty false)
  | Nan => ret Nan
  end.

Definition squarew (ctx : Ctx.t St) (t amplitude period : num) : M St xreal :=
  let P := period in
  let A := amplitude in
  p <- host (mul (Int 2) t) ;;
  q <- host (div p P) ;;
  n <- floor ctx (of_float q) ;;
  ret (xmul (of_num A) (pow_neg1 n)).

Definition trianglew (ctx : Ctx.t St) (t amplitude period : num) : M St xreal :=
  let A := amplitude in
  let P := period in
  a2 <- host (mul (Int 2) A) ;;
  q <- host (div t P) ;;
  f <- frac ctx (of_float (add q quarter)) ;;
  a <- fabs ctx (xsub (Fin 1) (xmul (Fin 2) f)) ;;
  ret (xmul (of_num a2) (xsub (Fin 0.5) a)).

Definition sawtoothw (ctx : Ctx.t St) (t amplitude period : num) : M St xreal :=
  let A := amplitude in
  let P := period in
  q <- host (div t P) ;;
  f <- frac ctx (of_float q) ;;
  ret (xmul (of_num A) f).

End Calls.

(** The host evaluates [2*t/P], [t/P], [t/P + 0.25] or [2*A] without
    rounding: it returns a float whose value is the exact result. *)
Definition quotient2_exact (t P : num) (tr pr : R) : Prop :=
  of_num t = Fin tr /\ of_num P = Fin pr /\ pr <> 0
  /\ exists q, quotient2 t P = Return q /\ of_float q = Fin (2 * tr / pr).

Definition quotient_exact (t P : num) (tr pr : R) : Prop :=
  of_num t = Fin tr /\ of_num P = Fin pr /\ pr <> 0
  /\ exists q, div t P = Return q /\ of_float q = Fin (tr / pr).

Definition phase_exact (t P : num) (tr pr : R) : Prop :=
  of_num t = Fin tr /\ of_num P = Fin pr /\ pr <> 0
  /\ exists y, phase t P = Return y /\ of_float y = Fin (tr / pr + 0.25).

Definition double_exact (A : num) (a : R) : Prop :=
  of_num A = Fin a
  /\ exists a2, mul (Int 2) A = Return a2 /\ of_num a2 = Fin (2 * a).

End Host.

(** ** Properties of calls *)

Section Calls.

Context {St : Type}.



End Calls.
(** ** Running the calls *)

Section Run.

Context {St : Type}.
Implicit Types (s : St) (t A P x : R).

Lemma truediv_nonzero x y s :
  y <> 0 -> truediv x y s = (Return (x / y), s).
Proof.
  intros Hy. unfold truediv.
  destruct (Req_dec_T y 0) as [E | _]; [contradiction | reflexivity].
Qed.


Lemma run_unit_triangle_outside t A s :
  Rabs t >= 1 -> unit_triangle t A s = (Return 0, s).
Proof.
  intros Ht. unfold unit_triangle, le_b, ge_b.
  destruct (Rle_dec t (-1)) as [_ | Hlo]; [reflexivity |].
  destruct (Rge_dec t 1) as [_ | Hhi]; [reflexivity |].
  exfalso. revert Ht. unfold Rabs. destruct (Rcase_abs t); lra.
Qed.

Lemma run_unit_triangle_inside t A s :
  Rabs t < 1 -> unit_triangle t A s = (Return (A * (- Rabs t + 1)), s).
Proof.
  intros Ht. unfold unit_triangle, le_b, ge_b.
  destruct (Rle_dec t (-1)) as [Hlo | _];
    [exfalso; revert Ht; unfold Rabs; destruct (Rcase_abs t); lra |].
  destruct (Rge_dec t 1) as [Hhi | _];
    [exfalso; revert Ht; unfold Rabs; destruct (Rcase_abs t); lra |].
  reflexivity.
Qed.

Lemma run_sigmoidw t A s :
  sigmoidw (exact St) t A s
  = (Return (A / (1 + Rtrigo_def.exp (- t))), s).
Proof.
  unfold sigmoidw, bind. cbn.
  apply truediv_nonzero.
  pose proof (exp_pos (- t)). lra.
Qed.

End Run.

(** ** Integer powers of -1 *)

Lemma pow_neg1_nat (k : nat) : (-1) ^ k = 1 \/ (-1) ^ k = -1.
Proof.
  induction k as [| k [IH | IH]]; simpl; rewrite ?IH; lra.
Qed.

Lemma pow_neg1_cases (n : Z) : pow_int (-1) n = 1 \/ pow_int (-1) n = -1.
Proof.
  unfold pow_int. destruct n as [| p | p]; simpl.
  - left; reflexivity.
  - apply pow_neg1_nat.
  - destruct (pow_neg1_nat (Pos.to_nat p)) as [E | E]; rewrite E.
    + left. apply Rinv_1.
    + right. lra.
Qed.

Lemma pow_neg1_succ (n : Z) : pow_int (-1) (n + 1) = - pow_int (-1) n.
Proof.
  unfold pow_int. rewrite powerRZ_add by lra.
  change (powerRZ (-1) 1) with (-1 * 1). lra.
Qed.

Lemma pow_neg1_double (k : Z) : pow_int (-1) (2 * k) = 1.
Proof.
  replace (2 * k)%Z with (k + k)%Z by lia.
  unfold pow_int. rewrite powerRZ_add by lra.
  destruct (pow_neg1_cases k) as [E | E]; unfold pow_int in E; rewrite E; lra.
Qed.

Lemma pow_neg1_parity (n : Z) :
  pow_int (-1) n = if Z.even n then 1 else -1.
Proof.
  destruct (Z.even n) eqn:E.
  - apply Z.even_spec in E. destruct E as [k ->]. apply pow_neg1_double.
  - assert (O : Z.odd n = true) by (rewrite <- Z.negb_even, E; reflexivity).
    apply Z.odd_spec in O. destruct O as [k ->].
    rewrite pow_neg1_succ, pow_neg1_double. reflexivity.
Qed.

Lemma pow_neg1_add2 (n : Z) : pow_int (-1) (n + 2) = pow_int (-1) n.
Proof.
  replace (n + 2)%Z with (n + 1 + 1)%Z by lia.
  rewrite !pow_neg1_succ. lra.
Qed.

(** ** Floor and fractional part *)

Lemma Rfrac_bound (x : R) : 0 <= Rfrac x < 1.
Proof.
  unfold Rfrac. pose proof (Zfloor_bound x). lra.
Qed.

Lemma Rfrac_addz (x : R) (z : Z) : Rfrac (x + IZR z) = Rfrac x.
Proof.
  unfold Rfrac. rewrite Zfloor_addz, plus_IZR. lra.
Qed.

Lemma Rfrac_IZR (z : Z) : Rfrac (IZR z) = 0.
Proof.
  unfold Rfrac. rewrite ZfloorZ. lra.
Qed.

Lemma Rfrac_small (x : R) : 0 <= x < 1 -> Rfrac x = x.
Proof.
  intros Hx. unfold Rfrac. rewrite (Zfloor_eq 0 x) by lra. lra.
Qed.

Lemma floor_first_half (t P : R) (k : Z) :
  IZR k * P <= t < IZR k * P + P / 2 ->
  Zfloor (2 * t / P) = (2 * k)%Z.
Proof.
  intros [Hlo Hhi].
  assert (HP : 0 < P) by lra.
  apply Zfloor_eq. rewrite mult_IZR.
  split.
  - apply Rmult_le_reg_r with P; [assumption |].
    replace (2 * t / P * P) with (2 * t) by (field; lra). lra.
  - apply Rmult_lt_reg_r with P; [assumption |].
    replace (2 * t / P * P) with (2 * t) by (field; lra). lra.
Qed.

Lemma floor_second_half (t P : R) (k : Z) :
  IZR k * P + P / 2 <= t < IZR k * P + P ->
  Zfloor (2 * t / P) = (2 * k + 1)%Z.
Proof.
  intros [Hlo Hhi].
  assert (HP : 0 < P) by lra.
  apply Zfloor_eq. rewrite plus_IZR, mult_IZR.
  split.
  - apply Rmult_le_reg_r with P; [assumption |].
    replace (2 * t / P * P) with (2 * t) by (field; lra). lra.
  - apply Rmult_lt_reg_r with P; [assumption |].
    replace (2 * t / P * P) with (2 * t) by (field; lra). lra.
Qed.

Lemma floor_shift_period (t P : R) :
  P <> 0 -> Zfloor (2 * (t + P) / P) = (Zfloor (2 * t / P) + 2)%Z.
Proof.
  intros HP.
  replace (2 * (t + P) / P) with (2 * t / P + IZR 2) by (field; assumption).
  apply Zfloor_addz.
Qed.

Lemma floor_shift_half_period (t P : R) :
  P <> 0 -> Zfloor (2 * (t + P / 2) / P) = (Zfloor (2 * t / P) + 1)%Z.
Proof.
  intros HP.
  replace (2 * (t + P / 2) / P) with (2 * t / P + IZR 1) by (field; assumption).
  apply Zfloor_addz.
Qed.

(** ** Further properties: helper facts *)

Lemma floor_frac_unique (x f : R) (n : Z) :
  x = IZR n + f -> 0 <= f < 1 -> Zfloor x = n /\ Rfrac x = f.
Proof.
  intros Hx Hf.
  assert (Hn : Zfloor x = n) by (apply Zfloor_eq; lra).
  split; [exact Hn |]. unfold Rfrac. rewrite Hn. lra.
Qed.

Lemma floor_frac_split (x : R) : x = IZR (Zfloor x) + Rfrac x.
Proof.
  unfold Rfrac. lra.
Qed.

Lemma quotient_lower (a t P : R) : 0 < P -> a * P <= t -> a <= t / P.
Proof.
  intros HP H. apply Rmult_le_reg_r with P; [assumption |].
  replace (t / P * P) with t by (field; lra). assumption.
Qed.

Lemma quotient_upper (b t P : R) : 0 < P -> t <= b * P -> t / P <= b.
Proof.
  intros HP H. apply Rmult_le_reg_r with P; [assumption |].
  replace (t / P * P) with t by (field; lra). assumption.
Qed.

Lemma quotient_upper_strict (b t P : R) : 0 < P -> t < b * P -> t / P < b.
Proof.
  intros HP H. apply Rmult_lt_reg_r with P; [assumption |].
  replace (t / P * P) with t by (field; lra). assumption.
Qed.

Lemma pow_neg1_add_even (n k : Z) :
  pow_int (-1) (n + 2 * k) = pow_int (-1) n.
Proof.
  rewrite !pow_neg1_parity, Z.even_add_mul_2. reflexivity.
Qed.

Lemma pow_neg1_opp (n : Z) : pow_int (-1) (- n) = pow_int (-1) n.
Proof.
  rewrite !pow_neg1_parity, Z.even_opp. reflexivity.
Qed.

Lemma pow_neg1_opp_pred (n : Z) :
  pow_int (-1) (- n - 1) = - pow_int (-1) n.
Proof.
  replace (- n - 1)%Z with (- (n + 1))%Z by lia.
  rewrite pow_neg1_opp. apply pow_neg1_succ.
Qed.

(** The floor of the double of a number, from its own floor and fractional
    part. *)
Lemma floor_double (u : R) :
  (Rfrac u < 1 / 2 -> Zfloor (2 * u) = (2 * Zfloor u)%Z)
  /\ (1 / 2 <= Rfrac u -> Zfloor (2 * u) = (2 * Zfloor u + 1)%Z).
Proof.
  pose proof (Rfrac_bound u) as Hb. pose proof (floor_frac_split u) as Hu.
  split; intros Hf; apply Zfloor_eq;
    rewrite ?plus_IZR, mult_IZR; lra.
Qed.

(** Negating a number that is not an integer. *)
Lemma floor_frac_opp (x : R) :
  Rfrac x <> 0 ->
  Zfloor (- x) = (- Zfloor x - 1)%Z /\ Rfrac (- x) = 1 - Rfrac x.
Proof.
  intros Hf. pose proof (Rfrac_bound x) as Hb.
  apply floor_frac_unique.
  - rewrite minus_IZR, opp_IZR. pose proof (floor_frac_split x). lra.
  - lra.
Qed.

(** ** Further properties of the triangle wave *)

(** The distance term of the triangle wave, [|1 - 2 frac(x)|]. *)
Lemma tooth_opp_half (x : R) :
  0.5 - Rabs (1 - 2 * Rfrac (1 / 2 - x))
  = - (0.5 - Rabs (1 - 2 * Rfrac x)).
Proof.
  pose proof (Rfrac_bound x) as Hb. pose proof (floor_frac_split x) as Hx.
  destruct (Rle_dec (Rfrac x) (1 / 2)) as [Hle | Hgt].
  - destruct (floor_frac_unique (1 / 2 - x) (1 / 2 - Rfrac x) (- Zfloor x))
      as [_ ->]; [rewrite opp_IZR; lra | lra |].
    unfold Rabs. repeat destruct Rcase_abs; lra.
  - destruct (floor_frac_unique (1 / 2 - x) (3 / 2 - Rfrac x) (- Zfloor x - 1))
      as [_ ->]; [rewrite minus_IZR, opp_IZR; lra | lra |].
    unfold Rabs. repeat destruct Rcase_abs; lra.
Qed.

Lemma tooth_add_half (x : R) :
  0.5 - Rabs (1 - 2 * Rfrac (x + 1 / 2))
  = - (0.5 - Rabs (1 - 2 * Rfrac x)).
Proof.
  pose proof (Rfrac_bound x) as Hb. pose proof (floor_frac_split x) as Hx.
  destruct (Rlt_dec (Rfrac x) (1 / 2)) as [Hlt | Hge].
  - destruct (floor_frac_unique (x + 1 / 2) (Rfrac x + 1 / 2) (Zfloor x))
      as [_ ->]; [lra | lra |].
    unfold Rabs. repeat destruct Rcase_abs; lra.
  - destruct (floor_frac_unique (x + 1 / 2) (Rfrac x - 1 / 2) (Zfloor x + 1))
      as [_ ->]; [rewrite plus_IZR; lra | lra |].
    unfold Rabs. repeat destruct Rcase_abs; lra.
Qed.

(** [|1 - 2 frac(x)|] is the least of the [|1 - 2 (x - m)|] over the
    integers [m]. *)
Lemma tooth_least (x : R) (m : Z) :
  Rabs (1 - 2 * Rfrac x) <= Rabs (1 - 2 * (x - IZR m)).
Proof.
  pose proof (Rfrac_bound x) as Hb. pose proof (floor_frac_split x) as Hx.
  destruct (Z.lt_trichotomy (Zfloor x) m) as [Hlt | [Heq | Hgt]].
  - assert (H : IZR (Zfloor x) + 1 <= IZR m).
    { rewrite <- (plus_IZR _ 1). apply IZR_le. lia. }
    unfold Rabs. repeat destruct Rcase_abs; lra.
  - rewrite <- Heq. unfold Rfrac. apply Rle_refl.
  - assert (H : IZR m + 1 <= IZR (Zfloor x)).
    { rewrite <- (plus_IZR _ 1). apply IZR_le. lia. }
    unfold Rabs. repeat destruct Rcase_abs; lra.
Qed.

Lemma tooth_step (x y : R) :
  Rabs (1 - 2 * Rfrac x) <= Rabs (1 - 2 * Rfrac y) + 2 * Rabs (x - y).
Proof.
  apply Rle_trans with (1 := tooth_least x (Zfloor y)).
  unfold Rfrac, Rabs. repeat destruct Rcase_abs; lra.
Qed.

Lemma tooth_lipschitz (x y : R) :
  Rabs (Rabs (1 - 2 * Rfrac x) - Rabs (1 - 2 * Rfrac y))
  <= 2 * Rabs (x - y).
Proof.
  pose proof (tooth_step x y) as Hxy. pose proof (tooth_step y x) as Hyx.
  rewrite (Rabs_minus_sym y x) in Hyx.
  apply Rabs_le. lra.
Qed.

(** ** Further properties of the pulse and of the sigmoid *)


Section PulseAndSigmoidMore.

Context {St : Type}.
Implicit Types (s : St) (t A : R).

Lemma unit_triangle_clamp t A s :
  unit_triangle t A s = (Return (A * Rmax 0 (1 - Rabs t)), s).
Proof.
  destruct (Rlt_dec (Rabs t) 1) as [Hin | Hout].
  - rewrite run_unit_triangle_inside by assumption.
    rewrite Rmax_right by lra. do 2 f_equal. lra.
  - rewrite run_unit_triangle_outside by lra.
    rewrite Rmax_left by lra. do 2 f_equal. lra.
Qed.

Lemma unit_triangle_opp t A s :
  unit_triangle (- t) A s = unit_triangle t A s.
Proof.
  rewrite !unit_triangle_clamp, Rabs_Ropp. reflexivity.
Qed.

Lemma sigmoidw_opp t A s :
  sigmoidw (exact St) (- t) A s
  = (Return (A - A / (1 + Rtrigo_def.exp (- t))), s).
Proof.
  rewrite run_sigmoidw, Ropp_involutive, exp_Ropp.
  pose proof (exp_pos t) as He.
  do 2 f_equal. field. lra.
Qed.

Lemma logistic_increasing (t1 t2 : R) :
  t1 < t2 ->
  / (1 + Rtrigo_def.exp (- t1)) < / (1 + Rtrigo_def.exp (- t2)).
Proof.
  intros Ht.
  assert (He : Rtrigo_def.exp (- t2) < Rtrigo_def.exp (- t1))
    by (apply exp_increasing; lra).
  pose proof (exp_pos (- t1)). pose proof (exp_pos (- t2)).
  apply Rinv_lt_contravar; [| lra].
  apply Rmult_lt_0_compat; lra.
Qed.

End PulseAndSigmoidMore.

(** ** The sigmoid *)

Section Sigmoid.

Context {St : Type}.
Implicit Types (s : St) (t A : R).

Lemma sigmoidw_zero A s :
  sigmoidw (exact St) 0 A s = (Return (A / 2), s).
Proof.
  rewrite run_sigmoidw, Ropp_0, exp_0.
  replace (1 + 1) with 2 by lra. reflexivity.
Qed.

End Sigmoid.

(** ** Calls on an arbitrary context *)

Section AnyContext.

Context {St : Type}.
Implicit Types (ctx : Ctx.t St) (s : St) (t A P : R).




End AnyContext.

(** ** Running the waves on ints and floats *)

(** Values of concrete floats and ints. *)
Ltac host_value :=
  unfold Host.of_num, Host.of_float, Host.F2R; cbn [cond_Zopp Z.opp];
  repeat match goal with
         | |- context [Z.pow_pos ?b ?p] =>
             let v := eval vm_compute in (Z.pow_pos b p) in
             change (Z.pow_pos b p) with v
         | |- context [IZR (Zpos ?m * 2 ^ ?e)] =>
             let v := eval vm_compute in (Zpos m * 2 ^ e)%Z in
             change (Zpos m * 2 ^ e)%Z with v
         | |- context [IZR (Zneg ?m * 2 ^ ?e)] =>
             let v := eval vm_compute in (Zneg m * 2 ^ e)%Z in
             change (Zneg m * 2 ^ e)%Z with v
         end;
  try reflexivity; try (f_equal; lra).

Section HostRun.

Context {St : Type}.
Implicit Types (s : St) (t A P : Host.num) (q y : spec_float) (x a b : R).

Lemma host_squarew_return s t A P q :
  Host.quotient2 t P = Return q ->
  Host.squarew (exact St) t A P s
  = (n <- Host.floor (exact St) (Host.of_float q) ;;
     ret (Host.xmul (Host.of_num A) (Host.pow_neg1 n))) s.
Proof.
  unfold Host.quotient2, Host.squarew, bind, Host.host.
  destruct (Host.mul (Host.Int 2) t) as [p | e]; [| discriminate].
  intros H. rewrite H. reflexivity.
Qed.

Lemma host_squarew_finite s t A P q x a :
  Host.quotient2 t P = Return q ->
  Host.of_float q = Host.Fin x ->
  Host.of_num A = Host.Fin a ->
  Host.squarew (exact St) t A P s
  = (Return (Host.Fin (a * pow_int (-1) (Zfloor x))), s).
Proof.
  intros Hq Hx Ha. rewrite (host_squarew_return s t A P q Hq).
  rewrite Hx, Ha. reflexivity.
Qed.


Lemma host_trianglew_finite s t A P (a2 : Host.num) y x b :
  Host.mul (Host.Int 2) A = Return a2 ->
  Host.of_num a2 = Host.Fin b ->
  Host.phase t P = Return y ->
  Host.of_float y = Host.Fin x ->
  Host.trianglew (exact St) t A P s
  = (Return (Host.Fin (b * (0.5 - Rabs (1 - 2 * Rfrac x)))), s).
Proof.
  intros Ha2 Hb Hy Hx.
  unfold Host.phase in Hy. unfold Host.trianglew, bind, Host.host.
  rewrite Ha2.
  destruct (Host.div t P) as [q | e]; [| discriminate].
  injection Hy as <-. rewrite Hx, Hb. reflexivity.
Qed.

Lemma host_sawtoothw_finite s t A P q x a :
  Host.div t P = Return q ->
  Host.of_float q = Host.Fin x ->
  Host.of_num A = Host.Fin a ->
  Host.sawtoothw (exact St) t A P s = (Return (Host.Fin (a * Rfrac x)), s).
Proof.
  intros Hq Hx Ha. unfold Host.sawtoothw, bind, Host.host.
  rewrite Hq, Hx, Ha. reflexivity.
Qed.

Lemma host_squarew_exact s t A P tr a pr :
  Host.of_num A = Host.Fin a -> Host.quotient2_exact t P tr pr ->
  Host.squarew (exact St) t A P s
  = (Return (Host.Fin (a * pow_int (-1) (Zfloor (2 * tr / pr)))), s).
Proof.
  intros Ha (_ & _ & _ & q & Hq & Hx).
  apply (host_squarew_finite s t A P q _ a Hq Hx Ha).
Qed.

Lemma host_trianglew_exact s t A P tr a pr :
  Host.double_exact A a -> Host.phase_exact t P tr pr ->
  Host.trianglew (exact St) t A P s
  = (Return (Host.Fin (2 * a * (0.5 - Rabs (1 - 2 * Rfrac (tr / pr + 0.25))))),
     s).
Proof.
  intros (_ & a2 & Ha2 & Hb) (_ & _ & _ & y & Hy & Hx).
  apply (host_trianglew_finite s t A P a2 y _ _ Ha2 Hb Hy Hx).
Qed.

Lemma host_sawtoothw_exact s t A P tr a pr :
  Host.of_num A = Host.Fin a -> Host.quotient_exact t P tr pr ->
  Host.sawtoothw (exact St) t A P s
  = (Return (Host.Fin (a * Rfrac (tr / pr))), s).
Proof.
  intros Ha (_ & _ & _ & q & Hq & Hx).
  apply (host_sawtoothw_finite s t A P q _ a Hq Hx Ha).
Qed.

(** Doubling an int is exact. *)
Lemma double_exact_int (z : Z) : Host.double_exact (Host.Int z) (IZR z).
Proof.
  split; [reflexivity |].
  exists (Host.Int (2 * z)). split; [reflexivity |].
  unfold Host.of_num. rewrite mult_IZR. reflexivity.
Qed.

End HostRun.

(** ** Values of the triangle formula *)

Lemma tooth_at (x : R) : 0 <= x < 1 ->
  0.5 - Rabs (1 - 2 * Rfrac x) = 0.5 - Rabs (1 - 2 * x).
Proof.
  intros Hx. rewrite Rfrac_small by assumption. reflexivity.
Qed.

Lemma tooth_zero (pr : R) :
  pr <> 0 -> 0.5 - Rabs (1 - 2 * Rfrac (0 / pr + 0.25)) = 0.
Proof.
  intros HP. replace (0 / pr) with 0 by (field; assumption).
  rewrite tooth_at by lra.
  replace (1 - 2 * (0 + 0.25)) with (1 / 2) by lra.
  rewrite Rabs_pos_eq by lra. lra.
Qed.

Lemma tooth_quarter (pr : R) :
  pr <> 0 -> 0.5 - Rabs (1 - 2 * Rfrac (pr / 4 / pr + 0.25)) = 1 / 2.
Proof.
  intros HP. replace (pr / 4 / pr) with (1 / 4) by (field; assumption).
  rewrite tooth_at by lra.
  replace (1 - 2 * (1 / 4 + 0.25)) with 0 by lra.
  rewrite Rabs_R0. lra.
Qed.

Lemma tooth_half (pr : R) :
  pr <> 0 -> 0.5 - Rabs (1 - 2 * Rfrac (pr / 2 / pr + 0.25)) = 0.
Proof.
  intros HP. replace (pr / 2 / pr) with (1 / 2) by (field; assumption).
  rewrite tooth_at by lra.
  replace (1 - 2 * (1 / 2 + 0.25)) with (- (1 / 2)) by lra.
  rewrite Rabs_Ropp, Rabs_pos_eq by lra. lra.
Qed.

Lemma tooth_three_quarters (pr : R) :
  pr <> 0 -> 0.5 - Rabs (1 - 2 * Rfrac (3 * pr / 4 / pr + 0.25)) = - (1 / 2).
Proof.
  intros HP. replace (3 * pr / 4 / pr) with (3 / 4) by (field; assumption).
  replace (3 / 4 + 0.25) with (IZR 1) by lra.
  rewrite Rfrac_IZR. replace (1 - 2 * 0) with 1 by lra.
  rewrite Rabs_R1. lra.
Qed.


(** ** Int by int division without rounding

    When the divisor divides the dividend and the quotient is below [2^53]
    in magnitude, Python's [/] on two ints returns the quotient itself. *)

Section IntDivision.

Local Open Scope Z_scope.

Lemma digits2_log2 (p : positive) : Zpos (digits2_pos p) = Z.log2 (Zpos p) + 1.
Proof.
  induction p as [p IH | p IH |]; cbn [digits2_pos]; try reflexivity.
  - rewrite Pos2Z.inj_succ, IH.
    change (Zpos p~1) with (2 * Zpos p + 1).
    rewrite Z.log2_succ_double by lia. lia.
  - rewrite Pos2Z.inj_succ, IH.
    change (Zpos p~0) with (2 * Zpos p).
    rewrite Z.log2_double by lia. lia.
Qed.

Lemma Zdigits2_log2 (z : Z) : 0 < z -> Zdigits2 z = Z.log2 z + 1.
Proof.
  destruct z as [| p | p]; try lia. intros _. apply digits2_log2.
Qed.

Lemma round_aux_no_shift (sx : bool) (m : positive) (e : Z) :
  fexp 53 1024 (Zdigits2 (Zpos m) + e) - e <= 0 -> e <= 971 ->
  binary_round_aux 53 1024 sx (Zpos m) e loc_Exact = S754_finite sx m e.
Proof.
  intros Hn He. unfold binary_round_aux, shr_fexp.
  assert (Hs : forall mrs, shr mrs e (fexp 53 1024 (Zdigits2 (Zpos m) + e) - e) = (mrs, e)).
  { intros mrs. unfold shr.
    destruct (fexp 53 1024 (Zdigits2 (Zpos m) + e) - e); try reflexivity. lia. }
  rewrite Hs. cbn [shr_record_of_loc shr_m loc_of_shr_record round_nearest_even].
  rewrite Hs. cbn [shr_record_of_loc shr_m].
  replace (e <=? 1024 - 53) with true by (symmetry; apply Z.leb_le; lia).
  reflexivity.
Qed.

Lemma round_aux_one_shift (sx : bool) (m : positive) (e : Z) :
  fexp 53 1024 (Zdigits2 (Zpos m~0) + e) - e = 1 -> e + 1 <= 971 ->
  binary_round_aux 53 1024 sx (Zpos m~0) e loc_Exact = S754_finite sx m (e + 1).
Proof.
  intros Hn He. unfold binary_round_aux, shr_fexp.
  rewrite Hn. cbn [shr shr_record_of_loc iter_pos shr_1 orb shr_m loc_of_shr_record round_nearest_even].
  assert (Hd : Zdigits2 (Zpos m) + (e + 1) = Zdigits2 (Zpos m~0) + e).
  { cbn [Zdigits2 digits2_pos]. rewrite Pos2Z.inj_succ. lia. }
  rewrite Hd.
  replace (fexp 53 1024 (Zdigits2 (Zpos m~0) + e) - (e + 1)) with 0 by lia.
  cbn [shr shr_m].
  replace (e + 1 <=? 1024 - 53) with true by (symmetry; apply Z.leb_le; lia).
  reflexivity.
Qed.

Lemma fexp_small (x : Z) : -1021 <= x <= 53 -> fexp 53 1024 x = x - 53.
Proof.
  intros Hx. unfold fexp, emin. lia.
Qed.

Lemma even_positive (q : Z) : 0 < q -> exists m, 2 * q = Zpos m~0 /\ Zpos m = q.
Proof.
  destruct q as [| m | m]; try lia. intros _. exists m. split; reflexivity.
Qed.

(** The division of two positive ints whose quotient [k] is an integer
    below [2^53] is exact. *)
Lemma div_core_exact (p1 p2 : positive) (k : Z) :
  Zpos p1 = k * Zpos p2 -> k < 2 ^ 53 ->
  let D := Z.log2 (Zpos p1) - Z.log2 (Zpos p2) in
  SFdiv_core_binary 53 1024 (Zpos p1) 0 (Zpos p2) 0
  = (k * 2 ^ (53 - D), D - 53, loc_Exact)
  /\ 0 < k /\ Z.log2 k <= D <= Z.log2 k + 1 /\ Z.log2 k < 53.
Proof.
  intros Hk Hlt D.
  assert (Hkpos : 0 < k) by (destruct k; cbn in Hk; try lia; discriminate).
  assert (Hlog : Z.log2 k < 53) by (apply Z.log2_lt_pow2; lia).
  assert (HD : Z.log2 k <= D <= Z.log2 k + 1).
  { unfold D. rewrite Hk.
    pose proof (Z.log2_mul_below k (Zpos p2) Hkpos ltac:(lia)).
    pose proof (Z.log2_mul_above k (Zpos p2) ltac:(lia) ltac:(lia)).
    lia. }
  pose proof (Z.log2_nonneg k) as Hk0.
  split; [| repeat split; lia].
  unfold SFdiv_core_binary.
  rewrite !Zdigits2_log2 by lia. rewrite !Z.add_0_r, Z.sub_0_r.
  replace (Z.log2 (Zpos p1) + 1 - (Z.log2 (Zpos p2) + 1)) with D by (unfold D; lia).
  rewrite fexp_small by lia.
  replace (Z.min (D - 53) 0) with (D - 53) by lia.
  replace (0 - (D - 53)) with (53 - D) by lia.
  assert (Hm : match 53 - D with
               | Z0 => Zpos p1
               | Zpos _ => Z.shiftl (Zpos p1) (53 - D)
               | Zneg _ => 0
               end = k * 2 ^ (53 - D) * Zpos p2).
  { destruct (53 - D) as [| s | s] eqn:Es.
    - rewrite Hk. change (2 ^ 0) with 1. ring.
    - rewrite Z.shiftl_mul_pow2 by lia. rewrite Hk. ring.
    - lia. }
  rewrite Hm.
  assert (Hde : Z.div_eucl (k * 2 ^ (53 - D) * Zpos p2) (Zpos p2)
                = (k * 2 ^ (53 - D), 0)).
  { pose proof (Z.div_mul (k * 2 ^ (53 - D)) (Zpos p2) ltac:(lia)) as Hq.
    pose proof (Z.mod_mul (k * 2 ^ (53 - D)) (Zpos p2) ltac:(lia)) as Hr.
    unfold Z.div, Z.modulo in Hq, Hr.
    destruct (Z.div_eucl (k * 2 ^ (53 - D) * Zpos p2) (Zpos p2)) as [q r].
    cbn in Hq, Hr. subst. reflexivity. }
  rewrite Hde.
  unfold new_location, new_location_even, new_location_odd.
  destruct (Z.even (Zpos p2)); reflexivity.
Qed.

Lemma div_positive_exact (sx : bool) (p1 p2 : positive) (k : Z) :
  Zpos p1 = k * Zpos p2 -> k < 2 ^ 53 ->
  exists (m : positive) (e : Z),
    (let '(mz, ez, lz) := SFdiv_core_binary 53 1024 (Zpos p1) 0 (Zpos p2) 0 in
     binary_round_aux 53 1024 sx mz ez lz) = S754_finite sx m e
    /\ e <= 0 /\ Zpos m = k * 2 ^ (- e).
Proof.
  intros Hk Hlt.
  destruct (div_core_exact p1 p2 k Hk Hlt) as (Hcore & Hkpos & HD & Hlog).
  rewrite Hcore. clear Hcore.
  set (D := Z.log2 (Zpos p1) - Z.log2 (Zpos p2)) in *.
  pose proof (Z.log2_nonneg k) as Hk0.
  assert (Hdig : forall j, 0 <= j -> Z.log2 (k * 2 ^ j) = j + Z.log2 k)
    by (intros j Hj; apply Z.log2_mul_pow2; lia).
  destruct (Z.eq_dec D (Z.log2 k + 1)) as [Heq | Hne].
  - (* the quotient has D digits: no shift *)
    assert (Hq : 0 < k * 2 ^ (53 - D)) by (apply Z.mul_pos_pos; [lia | apply Z.pow_pos_nonneg; lia]).
    destruct (k * 2 ^ (53 - D)) as [| q | q] eqn:EQ; try lia.
    exists q, (D - 53). split; [| split; [lia |]].
    + apply round_aux_no_shift; [| lia].
      rewrite Zdigits2_log2 by lia. rewrite <- EQ, Hdig by lia.
      rewrite fexp_small by lia. lia.
    + replace (- (D - 53)) with (53 - D) by lia. symmetry. exact EQ.
  - (* the quotient has D + 1 digits: one shift *)
    assert (HDk : D = Z.log2 k) by lia.
    assert (Hq : 0 < k * 2 ^ (52 - D)) by (apply Z.mul_pos_pos; [lia | apply Z.pow_pos_nonneg; lia]).
    destruct (even_positive _ Hq) as (m & Hm2 & Hm).
    replace (k * 2 ^ (53 - D)) with (2 * (k * 2 ^ (52 - D))).
    2:{ replace (53 - D) with (Z.succ (52 - D)) by lia.
        rewrite Z.pow_succ_r by lia. ring. }
    rewrite Hm2.
    exists m, (D - 53 + 1). split; [| split; [lia |]].
    + apply round_aux_one_shift; [| lia].
      rewrite <- Hm2. rewrite Zdigits2_log2 by lia.
      replace (2 * (k * 2 ^ (52 - D))) with (k * 2 ^ (53 - D)).
      2:{ replace (53 - D) with (Z.succ (52 - D)) by lia.
          rewrite Z.pow_succ_r by lia. ring. }
      rewrite Hdig by lia. rewrite fexp_small by lia. lia.
    + rewrite Hm. replace (- (D - 53 + 1)) with (52 - D) by lia. reflexivity.
Qed.

End IntDivision.

Lemma F2R_scaled (s : bool) (m : positive) (e k : Z) :
  (e <= 0)%Z -> Zpos m = (k * 2 ^ (- e))%Z ->
  Host.F2R s m e = IZR (cond_Zopp s k).
Proof.
  intros He Hm. unfold Host.F2R.
  destruct e as [| p | p]; try lia.
  - change (- 0)%Z with 0%Z in Hm. change (2 ^ 0)%Z with 1%Z in *.
    rewrite Hm. f_equal. destruct s; cbn [cond_Zopp]; lia.
  - change (- Zneg p)%Z with (Zpos p) in Hm.
    change (2 ^ Zpos p)%Z with (Z.pow_pos 2 p) in Hm.
    assert (Hpow : IZR (Z.pow_pos 2 p) <> 0).
    { apply not_0_IZR. change (Z.pow_pos 2 p) with (2 ^ Zpos p)%Z.
      pose proof (Z.pow_pos_nonneg 2 (Zpos p)). lia. }
    rewrite Hm. destruct s; cbn [cond_Zopp].
    + rewrite <- Z.mul_opp_l, mult_IZR. field. assumption.
    + rewrite mult_IZR. field. assumption.
Qed.

Lemma int_div_exact (k b : Z) :
  b <> 0%Z -> (Z.abs k < 2 ^ 53)%Z ->
  exists q : spec_float,
    Host.div (Host.Int (k * b)) (Host.Int b) = Return q
    /\ Host.of_float q = Host.Fin (IZR k).
Proof.
  intros Hb Hk. unfold Host.div, Host.prec, Host.emax.
  replace (b =? 0)%Z with false by (symmetry; apply Z.eqb_neq; assumption).
  destruct (Z.eq_dec k 0) as [-> | Hk0].
  - change (0 * b)%Z with 0%Z. cbn [Host.unrounded].
    destruct b as [| p | p]; [contradiction | |];
      eexists; (split; [reflexivity | reflexivity]).
  - assert (Habs : Z.abs (k * b) = (Z.abs k * Z.abs b)%Z) by apply Z.abs_mul.
    destruct (k * b)%Z as [| p1 | p1] eqn:Ea; [nia | |];
      destruct b as [| p2 | p2]; try contradiction;
      cbn [Host.unrounded SFdiv Z.abs] in *.
    + destruct (div_positive_exact (xorb false false) p1 p2 (Z.abs k) Habs Hk)
        as (m & e & -> & He & Hm).
      eexists. split; [reflexivity |]. cbn [Host.of_float]. f_equal.
      rewrite (F2R_scaled _ m e (Z.abs k) He Hm). f_equal.
      cbn [xorb cond_Zopp]. nia.
    + destruct (div_positive_exact (xorb false true) p1 p2 (Z.abs k) Habs Hk)
        as (m & e & -> & He & Hm).
      eexists. split; [reflexivity |]. cbn [Host.of_float]. f_equal.
      rewrite (F2R_scaled _ m e (Z.abs k) He Hm). f_equal.
      cbn [xorb cond_Zopp]. nia.
    + destruct (div_positive_exact (xorb true false) p1 p2 (Z.abs k) Habs Hk)
        as (m & e & -> & He & Hm).
      eexists. split; [reflexivity |]. cbn [Host.of_float]. f_equal.
      rewrite (F2R_scaled _ m e (Z.abs k) He Hm). f_equal.
      cbn [xorb cond_Zopp]. nia.
    + destruct (div_positive_exact (xorb true true) p1 p2 (Z.abs k) Habs Hk)
        as (m & e & -> & He & Hm).
      eexists. split; [reflexivity |]. cbn [Host.of_float]. f_equal.
      rewrite (F2R_scaled _ m e (Z.abs k) He Hm). f_equal.
      cbn [xorb cond_Zopp]. nia.
Qed.

Lemma int_quotient_exact (t p k : Z) :
  p <> 0%Z -> (Z.abs k < 2 ^ 53)%Z -> t = (k * p)%Z ->
  Host.quotient_exact (Host.Int t) (Host.Int p) (IZR t) (IZR p).
Proof.
  intros Hp Hk ->.
  assert (Hpr : IZR p <> 0) by (apply not_0_IZR; assumption).
  split; [reflexivity |]. split; [reflexivity |]. split; [assumption |].
  destruct (int_div_exact k p Hp Hk) as (q & Hq & Hx).
  exists q. split; [assumption |].
  rewrite Hx, mult_IZR. f_equal. field. assumption.
Qed.

Lemma int_quotient2_exact (t p k : Z) :
  p <> 0%Z -> (Z.abs k < 2 ^ 53)%Z -> (2 * t)%Z = (k * p)%Z ->
  Host.quotient2_exact (Host.Int t) (Host.Int p) (IZR t) (IZR p).
Proof.
  intros Hp Hk Ht.
  assert (Hpr : IZR p <> 0) by (apply not_0_IZR; assumption).
  split; [reflexivity |]. split; [reflexivity |]. split; [assumption |].
  destruct (int_div_exact k p Hp Hk) as (q & Hq & Hx).
  exists q. split.
  - unfold Host.quotient2. cbn [Host.mul]. rewrite Ht. assumption.
  - rewrite Hx. f_equal.
    assert (E : 2 * IZR t = IZR k * IZR p)
      by (rewrite <- !mult_IZR; f_equal; assumption).
    replace (2 * IZR t) with (IZR k * IZR p) by (symmetry; exact E).
    field. assumption.
Qed.

Lemma int_quotient2_value (t p k : Z) :
  p <> 0%Z -> (2 * t)%Z = (k * p)%Z -> 2 * IZR t / IZR p = IZR k.
Proof.
  intros Hp Ht.
  assert (Hpr : IZR p <> 0) by (apply not_0_IZR; assumption).
  assert (E : 2 * IZR t = IZR k * IZR p)
    by (rewrite <- !mult_IZR; f_equal; assumption).
  rewrite E. field. assumption.
Qed.

(** ** The examples of the docstrings *)

Ltac floor_is k :=
  rewrite (Zfloor_eq k) by lra.

Ltac sign_of_power :=
  rewrite pow_neg1_parity;
  match goal with
  | |- context [Z.even ?k] =>
      let b := eval vm_compute in (Z.even k) in
      change (Z.even k) with b
  end; cbv iota.

Ltac host_squarew_eval :=
  erewrite host_squarew_finite; [| lazy; reflexivity | host_value | host_value].

Ltac host_sawtoothw_eval :=
  erewrite host_sawtoothw_finite; [| lazy; reflexivity | host_value | host_value].

Ltac host_trianglew_eval :=
  erewrite host_trianglew_finite;
  [| lazy; reflexivity | host_value | lazy; reflexivity | host_value].

Section Docstrings.

Import Host.

Example squarew_doc_0 :
  squarew (exact unit) (Int 0) (Int 1) (Int 2) tt = (Return (Fin 1), tt).
Proof.
  host_squarew_eval. floor_is 0%Z. sign_of_power. do 3 f_equal. lra.
Qed.

Example squarew_doc_half :
  squarew (exact unit) (Float (binary 1 (-1))) (Int 1) (Int 2) tt
  = (Return (Fin 1), tt).
Proof.
  host_squarew_eval. floor_is 0%Z. sign_of_power. do 3 f_equal. lra.
Qed.

Example squarew_doc_1 :
  squarew (exact unit) (Int 1) (Int 1) (Int 2) tt = (Return (Fin (- (1))), tt).
Proof.
  host_squarew_eval. floor_is 1%Z. sign_of_power. do 3 f_equal. lra.
Qed.

Example squarew_doc_one_and_half :
  squarew (exact unit) (Float (binary 3 (-1))) (Int 1) (Int 2) tt
  = (Return (Fin (- (1))), tt).
Proof.
  host_squarew_eval. floor_is 1%Z. sign_of_power. do 3 f_equal. lra.
Qed.

Example squarew_doc_2 :
  squarew (exact unit) (Int 2) (Int 1) (Int 2) tt = (Return (Fin 1), tt).
Proof.
  host_squarew_eval. floor_is 2%Z. sign_of_power. do 3 f_equal. lra.
Qed.

Example squarew_negative_time :
  squarew (exact unit) (Float (binary (-1) (-1))) (Int 1) (Int 2) tt
  = (Return (Fin (- (1))), tt).
Proof.
  host_squarew_eval. floor_is (-1)%Z. sign_of_power. do 3 f_equal. lra.
Qed.

Example trianglew_doc_quarter :
  trianglew (exact unit) (Float (binary 1 (-2))) (Int 1) (Int 2) tt
  = (Return (Fin 0.5), tt).
Proof.
  host_trianglew_eval. rewrite Rfrac_small by lra.
  rewrite Rabs_pos_eq by lra. do 3 f_equal. lra.
Qed.

Example trianglew_doc_half :
  trianglew (exact unit) (Float (binary 1 (-1))) (Int 1) (Int 2) tt
  = (Return (Fin 1), tt).
Proof.
  host_trianglew_eval. rewrite Rfrac_small by lra.
  rewrite Rabs_pos_eq by lra. do 3 f_equal. lra.
Qed.

Example trianglew_doc_one_and_half :
  trianglew (exact unit) (Float (binary 3 (-1))) (Int 1) (Int 2) tt
  = (Return (Fin (- (1))), tt).
Proof.
  host_trianglew_eval.
  match goal with
  | |- context [Rfrac ?x] => replace x with (IZR 1) by lra
  end.
  rewrite Rfrac_IZR, Rabs_pos_eq by lra. do 3 f_equal. lra.
Qed.

Example sawtoothw_doc_half :
  sawtoothw (exact unit) (Float (binary 1 (-1))) (Int 1) (Int 2) tt
  = (Return (Fin 0.25), tt).
Proof.
  host_sawtoothw_eval. rewrite Rfrac_small by lra. do 3 f_equal. lra.
Qed.

(** [1.0 / 0.1] is the float [10.0]: the sawtooth wave returns [0] at
    [t = 1.0] for the period [0.1], the float just above one tenth. *)
Example sawtoothw_tenth :
  sawtoothw (exact unit) (Float (binary 1 0)) (Int 1)
    (Float (binary 7205759403792794 (-56))) tt
  = (Return (Fin 0), tt).
Proof.
  host_sawtoothw_eval.
  match goal with
  | |- context [Rfrac ?x] => replace x with (IZR 10) by lra
  end.
  rewrite Rfrac_IZR. do 3 f_equal. lra.
Qed.

Example sawtoothw_doc_2 :
  sawtoothw (exact unit) (Int 2) (Int 1) (Int 2) tt = (Return (Fin 0), tt).
Proof.
  host_sawtoothw_eval.
  match goal with
  | |- context [Rfrac ?x] => replace x with (IZR 1) by lra
  end.
  rewrite Rfrac_IZR. do 3 f_equal. lra.
Qed.

End Docstrings.

Section DocstringsReal.

Example unit_triangle_doc_m1 : unit_triangle (- (1)) 1 tt = (Return 0, tt).
Proof.
  apply run_unit_triangle_outside. rewrite Rabs_Ropp, Rabs_R1. lra.
Qed.

Example unit_triangle_doc_half : unit_triangle 0.5 1 tt = (Return 0.5, tt).
Proof.
  assert (H : Rabs 0.5 = 0.5) by (apply Rabs_pos_eq; lra).
  rewrite run_unit_triangle_inside by lra.
  rewrite H. do 2 f_equal. lra.
Qed.

Example sigmoidw_doc_0 : sigmoidw (exact unit) 0 1 tt = (Return 0.5, tt).
Proof.
  rewrite sigmoidw_zero. do 2 f_equal. lra.
Qed.

End DocstringsReal.

(** ** The specification, claim by claim *)



(** C5. The sigmoid returns [A / (1 + exp(-t))]; at [t = 0] that is
    [A / 2]. *)
Theorem sigmoidw_spec {St : Type} (s : St) (t A : R) :
  sigmoidw (exact St) t A s = (Return (A / (1 + Rtrigo_def.exp (- t))), s)
  /\ sigmoidw (exact St) 0 A s = (Return (A / 2), s).
Proof.
  split; [apply run_sigmoidw | apply sigmoidw_zero].
Qed.


(** C1, as worded for every time and period, fails on ints: at
    [t = 2^53 + 1], [A = 1], [P = 2] the host quotient [2*t/P] is rounded to
    [2^53], and the square wave returns [1], although [t] lies in the second
    half of its period and [A (-1)^floor(2t/P)] is [-1]. *)
Lemma squarew_rounded_quotient :
  Host.squarew (exact unit) (Host.Int 9007199254740993) (Host.Int 1)
    (Host.Int 2) tt
  = (Return (Host.Fin 1), tt)
  /\ IZR 4503599627370496 * 2 + 2 / 2 <= IZR 9007199254740993
     < IZR 4503599627370496 * 2 + 2
  /\ 1 * pow_int (-1) (Zfloor (2 * IZR 9007199254740993 / 2)) = -1.
Proof.
  split; [| split].
  - host_squarew_eval. rewrite ZfloorZ. sign_of_power. do 3 f_equal. lra.
  - lra.
  - replace (2 * IZR 9007199254740993 / 2) with (IZR 9007199254740993) by lra.
    rewrite ZfloorZ. sign_of_power. lra.
Qed.

(** C1, amended. For int or float arguments for which the host evaluates
    [2*t/P] without rounding, the square wave returns
    [A * (-1) ** floor(2t/P)]; the power is [1] for an even floor and [-1]
    for an odd one, whatever the sign of the floor; so the value is [A] on
    the first half [k P <= t < k P + P/2] of every period and [-A] on the
    second half [k P + P/2 <= t < (k+1) P]. *)
Theorem host_squarew_spec {St : Type} (s : St) (t A P : Host.num)
  (tr a pr : R) :
  Host.of_num A = Host.Fin a ->
  Host.quotient2_exact t P tr pr ->
  Host.squarew (exact St) t A P s
  = (Return (Host.Fin (a * pow_int (-1) (Zfloor (2 * tr / pr)))), s)
  /\ pow_int (-1) (Zfloor (2 * tr / pr))
     = (if Z.even (Zfloor (2 * tr / pr)) then 1 else -1)
  /\ (forall k : Z, IZR k * pr <= tr < IZR k * pr + pr / 2 ->
      Host.squarew (exact St) t A P s = (Return (Host.Fin a), s))
  /\ (forall k : Z, IZR k * pr + pr / 2 <= tr < IZR k * pr + pr ->
      Host.squarew (exact St) t A P s = (Return (Host.Fin (- a)), s)).
Proof.
  intros Ha Hq. rewrite (host_squarew_exact s t A P tr a pr Ha Hq).
  split; [reflexivity |].
  split; [apply pow_neg1_parity |].
  split; intros k Hk.
  - rewrite (floor_first_half tr pr k Hk), pow_neg1_double.
    do 3 f_equal. lra.
  - rewrite (floor_second_half tr pr k Hk), pow_neg1_succ, pow_neg1_double.
    do 3 f_equal. lra.
Qed.

Lemma host_squarew_spec_witness :
  Host.of_num (Host.Int 1) = Host.Fin 1
  /\ Host.quotient2_exact (Host.Float (Host.binary (-1) (-1))) (Host.Int 2)
       (- (1 / 2)) 2
  /\ Host.squarew (exact unit) (Host.Float (Host.binary (-1) (-1)))
       (Host.Int 1) (Host.Int 2) tt
     = (Return (Host.Fin (- (1))), tt).
Proof.
  assert (Ha : Host.of_num (Host.Int 1) = Host.Fin 1) by reflexivity.
  assert (Hq : Host.quotient2_exact (Host.Float (Host.binary (-1) (-1)))
                 (Host.Int 2) (- (1 / 2)) 2).
  { split; [lazy; host_value |]. split; [host_value |]. split; [lra |].
    eexists. split; [lazy; reflexivity | host_value]. }
  split; [exact Ha |]. split; [exact Hq |].
  destruct (host_squarew_spec tt _ _ _ _ _ _ Ha Hq) as (_ & _ & _ & Hsecond).
  apply (Hsecond (-1)%Z). lra.
Defined.

(** C2, as worded for every time and period, fails on ints: at
    [t = 2^53 + 1], [A = 1], [P = 4] the host sum [t/P + 0.25] is rounded to
    [2^51], and the triangle wave returns [-1], although
    [2 A (0.5 - |1 - 2 frac(t/P + 0.25)|)] is [1]. *)
Lemma trianglew_rounded_phase :
  Host.trianglew (exact unit) (Host.Int 9007199254740993) (Host.Int 1)
    (Host.Int 4) tt
  = (Return (Host.Fin (- (1))), tt)
  /\ 2 * 1 * (0.5 - Rabs (1 - 2 * Rfrac (IZR 9007199254740993 / 4 + 0.25)))
     = 1.
Proof.
  split.
  - host_trianglew_eval.
    match goal with
    | |- context [Rfrac ?x] =>
        replace x with (IZR 2251799813685248) by lra
    end.
    rewrite Rfrac_IZR, Rabs_pos_eq by lra. do 3 f_equal. lra.
  - replace (IZR 9007199254740993 / 4 + 0.25)
      with (1 / 2 + IZR 2251799813685248) by lra.
    rewrite Rfrac_addz, Rfrac_small by lra.
    replace (1 - 2 * (1 / 2)) with 0 by lra. rewrite Rabs_R0. lra.
Qed.

(** C2, amended. For int or float arguments for which the host evaluates
    [t/P + 0.25] and [2*A] without rounding, the triangle wave returns
    [2 A (0.5 - |1 - 2 frac(t/P + 0.25)|)], where [frac(x) = x - floor(x)]
    lies in [[0, 1)] for every real [x]; the value is [0] at [t = 0], [A] at
    [t = P/4], [0] at [t = P/2] and [-A] at [t = 3P/4]. *)
Theorem host_trianglew_spec {St : Type} (s : St) (t A P : Host.num)
  (tr a pr : R) :
  Host.double_exact A a ->
  Host.phase_exact t P tr pr ->
  Host.trianglew (exact St) t A P s
  = (Return
       (Host.Fin (2 * a * (0.5 - Rabs (1 - 2 * Rfrac (tr / pr + 0.25))))), s)
  /\ (forall x : R,
        Ctx.frac (exact St) x s = (Return (x - IZR (Zfloor x)), s)
        /\ 0 <= x - IZR (Zfloor x) < 1)
  /\ (tr = 0 ->
      Host.trianglew (exact St) t A P s = (Return (Host.Fin 0), s))
  /\ (tr = pr / 4 ->
      Host.trianglew (exact St) t A P s = (Return (Host.Fin a), s))
  /\ (tr = pr / 2 ->
      Host.trianglew (exact St) t A P s = (Return (Host.Fin 0), s))
  /\ (tr = 3 * pr / 4 ->
      Host.trianglew (exact St) t A P s = (Return (Host.Fin (- a)), s)).
Proof.
  intros Ha Hy. rewrite (host_trianglew_exact s t A P tr a pr Ha Hy).
  destruct Hy as (_ & _ & Hpr & _).
  split; [reflexivity |].
  split; [intros x; split; [reflexivity | apply (Rfrac_bound x)] |].
  split; [| split; [| split]]; intros ->.
  - rewrite (tooth_zero pr Hpr). do 3 f_equal. lra.
  - rewrite (tooth_quarter pr Hpr). do 3 f_equal. lra.
  - rewrite (tooth_half pr Hpr). do 3 f_equal. lra.
  - rewrite (tooth_three_quarters pr Hpr). do 3 f_equal. lra.
Qed.

Lemma host_trianglew_spec_witness :
  Host.double_exact (Host.Int 1) 1
  /\ Host.phase_exact (Host.Float (Host.binary 3 (-1))) (Host.Int 2)
       (3 * 2 / 4) 2
  /\ Host.trianglew (exact unit) (Host.Float (Host.binary 3 (-1)))
       (Host.Int 1) (Host.Int 2) tt
     = (Return (Host.Fin (- (1))), tt).
Proof.
  assert (Ha : Host.double_exact (Host.Int 1) 1) by apply double_exact_int.
  assert (Hy : Host.phase_exact (Host.Float (Host.binary 3 (-1)))
                 (Host.Int 2) (3 * 2 / 4) 2).
  { split; [lazy; host_value |]. split; [host_value |]. split; [lra |].
    eexists. split; [lazy; reflexivity | host_value]. }
  split; [exact Ha |]. split; [exact Hy |].
  apply (host_trianglew_spec tt _ _ _ _ _ _ Ha Hy). reflexivity.
Defined.

(** C3, as worded for every time and period, fails on ints: at
    [t = 2^53 + 1], [A = 1], [P = 2] the host quotient [t/P] is rounded to
    [2^52], and the sawtooth wave returns [0], although [A frac(t/P)] is
    [1/2]. *)
Lemma sawtoothw_rounded_quotient :
  Host.sawtoothw (exact unit) (Host.Int 9007199254740993) (Host.Int 1)
    (Host.Int 2) tt
  = (Return (Host.Fin 0), tt)
  /\ 1 * Rfrac (IZR 9007199254740993 / 2) = 1 / 2.
Proof.
  split.
  - host_sawtoothw_eval. rewrite Rfrac_IZR. do 3 f_equal. lra.
  - replace (IZR 9007199254740993 / 2)
      with (1 / 2 + IZR 4503599627370496) by lra.
    rewrite Rfrac_addz, Rfrac_small by lra. lra.
Qed.

(** C3, amended. For int or float arguments for which the host evaluates
    [t/P] without rounding, the sawtooth wave returns [A * frac(t/P)]; at
    every period boundary [t = k P] the value is [0]. *)
Theorem host_sawtoothw_spec {St : Type} (s : St) (t A P : Host.num)
  (tr a pr : R) :
  Host.of_num A = Host.Fin a ->
  Host.quotient_exact t P tr pr ->
  Host.sawtoothw (exact St) t A P s
  = (Return (Host.Fin (a * (tr / pr - IZR (Zfloor (tr / pr))))), s)
  /\ (forall k : Z, tr = IZR k * pr ->
      Host.sawtoothw (exact St) t A P s = (Return (Host.Fin 0), s)).
Proof.
  intros Ha Hq. rewrite (host_sawtoothw_exact s t A P tr a pr Ha Hq).
  destruct Hq as (_ & _ & Hpr & _).
  split; [reflexivity |].
  intros k ->.
  replace (IZR k * pr / pr) with (IZR k) by (field; assumption).
  rewrite Rfrac_IZR. do 3 f_equal. lra.
Qed.

Lemma host_sawtoothw_spec_witness :
  Host.of_num (Host.Int 1) = Host.Fin 1
  /\ Host.quotient_exact (Host.Int 2) (Host.Int 2) (IZR 1 * 2) 2
  /\ Host.sawtoothw (exact unit) (Host.Int 2) (Host.Int 1) (Host.Int 2) tt
     = (Return (Host.Fin 0), tt).
Proof.
  assert (Ha : Host.of_num (Host.Int 1) = Host.Fin 1) by reflexivity.
  assert (Hq : Host.quotient_exact (Host.Int 2) (Host.Int 2) (IZR 1 * 2) 2).
  { split; [host_value |]. split; [host_value |]. split; [lra |].
    eexists. split; [lazy; reflexivity | host_value]. }
  split; [exact Ha |]. split; [exact Hq |].
  destruct (host_sawtoothw_spec tt _ _ _ _ _ _ Ha Hq) as [_ Hboundary].
  apply (Hboundary 1%Z). reflexivity.
Defined.

(** C7, as worded for every time and period, fails on ints: with [A = 1]
    and [P = 2] the square wave returns [-1] at [t = 2^53 - 1] and [1] at
    [t + P = 2^53 + 1], where the host quotient is rounded. *)
Lemma squarew_not_periodic_on_ints :
  Host.squarew (exact unit) (Host.Int 9007199254740991) (Host.Int 1)
    (Host.Int 2) tt
  = (Return (Host.Fin (- (1))), tt)
  /\ Host.squarew (exact unit) (Host.Int (9007199254740991 + 2))
       (Host.Int 1) (Host.Int 2) tt
     = (Return (Host.Fin 1), tt).
Proof.
  split.
  - host_squarew_eval. rewrite ZfloorZ. sign_of_power. do 3 f_equal. lra.
  - host_squarew_eval. rewrite ZfloorZ. sign_of_power. do 3 f_equal. lra.
Qed.

(** C7, amended. For int or float arguments, a time [t'] of value [t + P]
    and a nonzero period, each of the three waves takes the same value at
    [t'] as at [t] whenever the host evaluates its quotient ([2*t/P], or
    [t/P + 0.25] with [2*A], or [t/P]) without rounding at both times. *)
Theorem host_waves_periodic {St : Type} (s : St) (t t' A P : Host.num)
  (tr a pr : R) :
  Host.of_num A = Host.Fin a ->
  (Host.quotient2_exact t P tr pr ->
   Host.quotient2_exact t' P (tr + pr) pr ->
   Host.squarew (exact St) t' A P s = Host.squarew (exact St) t A P s)
  /\ (Host.double_exact A a ->
      Host.phase_exact t P tr pr ->
      Host.phase_exact t' P (tr + pr) pr ->
      Host.trianglew (exact St) t' A P s = Host.trianglew (exact St) t A P s)
  /\ (Host.quotient_exact t P tr pr ->
      Host.quotient_exact t' P (tr + pr) pr ->
      Host.sawtoothw (exact St) t' A P s = Host.sawtoothw (exact St) t A P s).
Proof.
  intros Ha. split; [| split].
  - intros Hq Hq'.
    rewrite (host_squarew_exact s t A P tr a pr Ha Hq).
    rewrite (host_squarew_exact s t' A P (tr + pr) a pr Ha Hq').
    destruct Hq as (_ & _ & Hpr & _).
    rewrite floor_shift_period, pow_neg1_add2 by assumption. reflexivity.
  - intros Hd Hy Hy'.
    rewrite (host_trianglew_exact s t A P tr a pr Hd Hy).
    rewrite (host_trianglew_exact s t' A P (tr + pr) a pr Hd Hy').
    destruct Hy as (_ & _ & Hpr & _).
    replace ((tr + pr) / pr) with (tr / pr + 1) by (field; assumption).
    replace (tr / pr + 1 + 0.25) with (tr / pr + 0.25 + IZR 1) by lra.
    rewrite Rfrac_addz. reflexivity.
  - intros Hq Hq'.
    rewrite (host_sawtoothw_exact s t A P tr a pr Ha Hq).
    rewrite (host_sawtoothw_exact s t' A P (tr + pr) a pr Ha Hq').
    destruct Hq as (_ & _ & Hpr & _).
    replace ((tr + pr) / pr) with (tr / pr + IZR 1) by (field; assumption).
    rewrite Rfrac_addz. reflexivity.
Qed.

Lemma host_waves_periodic_witness :
  Host.of_num (Host.Int 1) = Host.Fin 1
  /\ Host.quotient_exact (Host.Float (Host.binary 1 (-1))) (Host.Int 2)
       (1 / 2) 2
  /\ Host.quotient_exact (Host.Float (Host.binary 5 (-1))) (Host.Int 2)
       (1 / 2 + 2) 2
  /\ Host.sawtoothw (exact unit) (Host.Float (Host.binary 5 (-1)))
       (Host.Int 1) (Host.Int 2) tt
     = Host.sawtoothw (exact unit) (Host.Float (Host.binary 1 (-1)))
         (Host.Int 1) (Host.Int 2) tt.
Proof.
  assert (Ha : Host.of_num (Host.Int 1) = Host.Fin 1) by reflexivity.
  assert (Hq : Host.quotient_exact (Host.Float (Host.binary 1 (-1)))
                 (Host.Int 2) (1 / 2) 2).
  { split; [lazy; host_value |]. split; [host_value |]. split; [lra |].
    eexists. split; [lazy; reflexivity | host_value]. }
  assert (Hq' : Host.quotient_exact (Host.Float (Host.binary 5 (-1)))
                  (Host.Int 2) (1 / 2 + 2) 2).
  { split; [lazy; host_value |]. split; [host_value |]. split; [lra |].
    eexists. split; [lazy; reflexivity | host_value]. }
  split; [exact Ha |]. split; [exact Hq |]. split; [exact Hq' |].
  destruct (host_waves_periodic tt (Host.Float (Host.binary 1 (-1)))
              (Host.Float (Host.binary 5 (-1))) (Host.Int 1) (Host.Int 2)
              (1 / 2) 1 2 Ha) as (_ & _ & Hsaw).
  apply (Hsaw Hq Hq').
Defined.




(** C10, as worded for every time and period, fails on ints: with [A = 1]
    and [P = 2] the square wave returns [1] at [t = 2^53] and [1] again at
    [t + P/2 = 2^53 + 1], where the host quotient is rounded. *)
Lemma squarew_half_period_on_ints :
  Host.squarew (exact unit) (Host.Int 9007199254740992) (Host.Int 1)
    (Host.Int 2) tt
  = (Return (Host.Fin 1), tt)
  /\ Host.squarew (exact unit) (Host.Int (9007199254740992 + 2 / 2))
       (Host.Int 1) (Host.Int 2) tt
     = (Return (Host.Fin 1), tt)
  /\ 1 <> - (1).
Proof.
  split; [| split].
  - host_squarew_eval. rewrite ZfloorZ. sign_of_power. do 3 f_equal. lra.
  - host_squarew_eval. rewrite ZfloorZ. sign_of_power. do 3 f_equal. lra.
  - lra.
Qed.

(** C10, amended. For int or float arguments, a time [t'] of value
    [t + P/2] and a nonzero period, whenever the host evaluates [2*t/P]
    without rounding at both times, [floor(2t'/P) = floor(2t/P) + 1] and the
    square wave at [t'] is the negation of the square wave at [t]. *)
Theorem host_squarew_half_period {St : Type} (s : St)
  (t t' A P : Host.num) (tr a pr : R) :
  Host.of_num A = Host.Fin a ->
  Host.quotient2_exact t P tr pr ->
  Host.quotient2_exact t' P (tr + pr / 2) pr ->
  Zfloor (2 * (tr + pr / 2) / pr) = (Zfloor (2 * tr / pr) + 1)%Z
  /\ exists r : R,
       Host.squarew (exact St) t A P s = (Return (Host.Fin r), s)
       /\ Host.squarew (exact St) t' A P s = (Return (Host.Fin (- r)), s).
Proof.
  intros Ha Hq Hq'.
  assert (Hpr : pr <> 0) by (destruct Hq as (_ & _ & H & _); exact H).
  split; [apply floor_shift_half_period; assumption |].
  exists (a * pow_int (-1) (Zfloor (2 * tr / pr))).
  split; [apply (host_squarew_exact s t A P tr a pr Ha Hq) |].
  rewrite (host_squarew_exact s t' A P (tr + pr / 2) a pr Ha Hq').
  rewrite floor_shift_half_period, pow_neg1_succ by assumption.
  do 3 f_equal. lra.
Qed.

Lemma host_squarew_half_period_witness :
  Host.of_num (Host.Int 1) = Host.Fin 1
  /\ Host.quotient2_exact (Host.Float (Host.binary 1 (-1))) (Host.Int 2)
       (1 / 2) 2
  /\ Host.quotient2_exact (Host.Float (Host.binary 3 (-1))) (Host.Int 2)
       (1 / 2 + 2 / 2) 2
  /\ exists r : R,
       Host.squarew (exact unit) (Host.Float (Host.binary 1 (-1)))
         (Host.Int 1) (Host.Int 2) tt
       = (Return (Host.Fin r), tt)
       /\ Host.squarew (exact unit) (Host.Float (Host.binary 3 (-1)))
            (Host.Int 1) (Host.Int 2) tt
          = (Return (Host.Fin (- r)), tt).
Proof.
  assert (Ha : Host.of_num (Host.Int 1) = Host.Fin 1) by reflexivity.
  assert (Hq : Host.quotient2_exact (Host.Float (Host.binary 1 (-1)))
                 (Host.Int 2) (1 / 2) 2).
  { split; [lazy; host_value |]. split; [host_value |]. split; [lra |].
    eexists. split; [lazy; reflexivity | host_value]. }
  assert (Hq' : Host.quotient2_exact (Host.Float (Host.binary 3 (-1)))
                  (Host.Int 2) (1 / 2 + 2 / 2) 2).
  { split; [lazy; host_value |]. split; [host_value |]. split; [lra |].
    eexists. split; [lazy; reflexivity | host_value]. }
  split; [exact Ha |]. split; [exact Hq |]. split; [exact Hq' |].
  apply (host_squarew_half_period tt _ _ _ _ _ _ _ Ha Hq Hq').
Defined.

(** ** Further properties: the formulas on the reals *)

Lemma square_of_frac (u : R) :
  (Rfrac u < 1 / 2 -> pow_int (-1) (Zfloor (2 * u)) = 1)
  /\ (1 / 2 <= Rfrac u -> pow_int (-1) (Zfloor (2 * u)) = -1).
Proof.
  destruct (floor_double u) as [Hlow Hhigh].
  split; intros Hf.
  - rewrite (Hlow Hf). apply pow_neg1_double.
  - rewrite (Hhigh Hf), pow_neg1_succ, pow_neg1_double. lra.
Qed.

Lemma square_opp_off_transition (x : R) :
  Rfrac x <> 0 ->
  pow_int (-1) (Zfloor (- x)) = - pow_int (-1) (Zfloor x).
Proof.
  intros Hf. destruct (floor_frac_opp _ Hf) as [-> _].
  apply pow_neg1_opp_pred.
Qed.

Lemma off_transition_frac (tr pr : R) :
  pr <> 0 -> (forall k : Z, tr <> IZR k * pr / 2) -> Rfrac (2 * tr / pr) <> 0.
Proof.
  intros HP Ht Hf. apply (Ht (Zfloor (2 * tr / pr))).
  pose proof (floor_frac_split (2 * tr / pr)) as Hx. rewrite Hf in Hx.
  replace (IZR (Zfloor (2 * tr / pr))) with (2 * tr / pr) by lra.
  field. assumption.
Qed.

Lemma off_boundary_frac (tr pr : R) :
  pr <> 0 -> (forall k : Z, tr <> IZR k * pr) -> Rfrac (tr / pr) <> 0.
Proof.
  intros HP Ht Hf. apply (Ht (Zfloor (tr / pr))).
  pose proof (floor_frac_split (tr / pr)) as Hx. rewrite Hf in Hx.
  replace (IZR (Zfloor (tr / pr))) with (tr / pr) by lra.
  field. assumption.
Qed.

Lemma frac_ramp (tr pr : R) (k : Z) :
  0 < pr -> IZR k * pr <= tr < IZR k * pr + pr ->
  Rfrac (tr / pr) = (tr - IZR k * pr) / pr.
Proof.
  intros HP [Hlo Hhi].
  assert (Hq : IZR k <= tr / pr < IZR k + 1).
  { split; [apply quotient_lower; assumption |].
    apply quotient_upper_strict; [assumption | lra]. }
  destruct (floor_frac_unique (tr / pr) (tr / pr - IZR k) k) as [_ ->];
    [lra | lra |].
  field. lra.
Qed.

Lemma tooth_rising (tr pr : R) (k : Z) :
  0 < pr -> IZR k * pr - pr / 4 <= tr <= IZR k * pr + pr / 4 ->
  0.5 - Rabs (1 - 2 * Rfrac (tr / pr + 0.25)) = 2 * (tr - IZR k * pr) / pr.
Proof.
  intros HP [Hlo Hhi].
  assert (Hq : IZR k - 1 / 4 <= tr / pr <= IZR k + 1 / 4).
  { split; [apply quotient_lower | apply quotient_upper]; lra. }
  replace (2 * (tr - IZR k * pr) / pr) with (2 * (tr / pr - IZR k))
    by (field; lra).
  set (u := tr / pr) in *.
  destruct (floor_frac_unique (u + 0.25) (u + 0.25 - IZR k) k)
    as [_ ->]; [lra | lra |].
  rewrite Rabs_pos_eq by lra. lra.
Qed.

Lemma tooth_falling (tr pr : R) (k : Z) :
  0 < pr -> IZR k * pr + pr / 4 <= tr <= IZR k * pr + 3 * pr / 4 ->
  0.5 - Rabs (1 - 2 * Rfrac (tr / pr + 0.25))
  = 1 - 2 * (tr - IZR k * pr) / pr.
Proof.
  intros HP [Hlo Hhi].
  assert (Hq : IZR k + 1 / 4 <= tr / pr <= IZR k + 3 / 4).
  { split; [apply quotient_lower | apply quotient_upper]; lra. }
  replace (2 * (tr - IZR k * pr) / pr) with (2 * (tr / pr - IZR k))
    by (field; lra).
  set (u := tr / pr) in *.
  destruct (Rlt_dec u (IZR k + 3 / 4)) as [Hlt | Hend].
  - destruct (floor_frac_unique (u + 0.25) (u + 0.25 - IZR k) k)
      as [_ ->]; [lra | lra |].
    rewrite Rabs_left1 by lra. lra.
  - destruct (floor_frac_unique (u + 0.25) 0 (k + 1))
      as [_ ->]; [rewrite plus_IZR; lra | lra |].
    replace (1 - 2 * 0) with 1 by lra. rewrite Rabs_R1. lra.
Qed.

Lemma tooth_difference (tr1 tr2 pr : R) :
  pr <> 0 ->
  Rabs ((0.5 - Rabs (1 - 2 * Rfrac (tr1 / pr + 0.25)))
        - (0.5 - Rabs (1 - 2 * Rfrac (tr2 / pr + 0.25))))
  <= 2 * Rabs (tr1 - tr2) / Rabs pr.
Proof.
  intros HP.
  pose proof (tooth_lipschitz (tr1 / pr + 0.25) (tr2 / pr + 0.25)) as HL.
  replace (tr1 / pr + 0.25 - (tr2 / pr + 0.25)) with ((tr1 - tr2) * / pr)
    in HL by (field; assumption).
  rewrite Rabs_mult, Rabs_inv in HL.
  set (h1 := Rabs (1 - 2 * Rfrac (tr1 / pr + 0.25))) in *.
  set (h2 := Rabs (1 - 2 * Rfrac (tr2 / pr + 0.25))) in *.
  replace (0.5 - h1 - (0.5 - h2)) with (h2 - h1) by lra.
  rewrite (Rabs_minus_sym h2 h1). unfold Rdiv. lra.
Qed.


(** ** Further properties, one by one *)

(** X1. On ints and floats, for a time [t'] of value [t + k P] with [k] any
    integer and a nonzero period, each of the three waves takes the same
    value at [t'] as at [t] whenever the host evaluates its quotient without
    rounding at both times. *)
Theorem host_waves_periodic_multiple {St : Type} (s : St)
  (t t' A P : Host.num) (tr a pr : R) (k : Z) :
  Host.of_num A = Host.Fin a ->
  (Host.quotient2_exact t P tr pr ->
   Host.quotient2_exact t' P (tr + IZR k * pr) pr ->
   Host.squarew (exact St) t' A P s = Host.squarew (exact St) t A P s)
  /\ (Host.double_exact A a ->
      Host.phase_exact t P tr pr ->
      Host.phase_exact t' P (tr + IZR k * pr) pr ->
      Host.trianglew (exact St) t' A P s = Host.trianglew (exact St) t A P s)
  /\ (Host.quotient_exact t P tr pr ->
      Host.quotient_exact t' P (tr + IZR k * pr) pr ->
      Host.sawtoothw (exact St) t' A P s = Host.sawtoothw (exact St) t A P s).
Proof.
  intros Ha. split; [| split].
  - intros Hq Hq'.
    rewrite (host_squarew_exact s t A P tr a pr Ha Hq).
    rewrite (host_squarew_exact s t' A P _ a pr Ha Hq').
    destruct Hq as (_ & _ & Hpr & _).
    replace (2 * (tr + IZR k * pr) / pr) with (2 * tr / pr + IZR (2 * k))
      by (rewrite mult_IZR; field; assumption).
    rewrite Zfloor_addz, pow_neg1_add_even. reflexivity.
  - intros Hd Hy Hy'.
    rewrite (host_trianglew_exact s t A P tr a pr Hd Hy).
    rewrite (host_trianglew_exact s t' A P _ a pr Hd Hy').
    destruct Hy as (_ & _ & Hpr & _).
    replace ((tr + IZR k * pr) / pr) with (tr / pr + IZR k)
      by (field; assumption).
    replace (tr / pr + IZR k + 0.25) with (tr / pr + 0.25 + IZR k) by lra.
    rewrite Rfrac_addz. reflexivity.
  - intros Hq Hq'.
    rewrite (host_sawtoothw_exact s t A P tr a pr Ha Hq).
    rewrite (host_sawtoothw_exact s t' A P _ a pr Ha Hq').
    destruct Hq as (_ & _ & Hpr & _).
    replace ((tr + IZR k * pr) / pr) with (tr / pr + IZR k)
      by (field; assumption).
    rewrite Rfrac_addz. reflexivity.
Qed.

Lemma host_waves_periodic_multiple_witness :
  Host.of_num (Host.Int 1) = Host.Fin 1
  /\ Host.quotient2_exact (Host.Float (Host.binary 1 (-1))) (Host.Int 2)
       (1 / 2) 2
  /\ Host.quotient2_exact (Host.Float (Host.binary (-11) (-1))) (Host.Int 2)
       (1 / 2 + IZR (-3) * 2) 2
  /\ Host.squarew (exact unit) (Host.Float (Host.binary (-11) (-1)))
       (Host.Int 1) (Host.Int 2) tt
     = Host.squarew (exact unit) (Host.Float (Host.binary 1 (-1)))
         (Host.Int 1) (Host.Int 2) tt.
Proof.
  assert (Ha : Host.of_num (Host.Int 1) = Host.Fin 1) by reflexivity.
  assert (Hq : Host.quotient2_exact (Host.Float (Host.binary 1 (-1)))
                 (Host.Int 2) (1 / 2) 2).
  { split; [lazy; host_value |]. split; [host_value |]. split; [lra |].
    eexists. split; [lazy; reflexivity | host_value]. }
  assert (Hq' : Host.quotient2_exact (Host.Float (Host.binary (-11) (-1)))
                  (Host.Int 2) (1 / 2 + IZR (-3) * 2) 2).
  { split; [lazy; host_value |]. split; [host_value |]. split; [lra |].
    eexists. split; [lazy; reflexivity | host_value]. }
  split; [exact Ha |]. split; [exact Hq |]. split; [exact Hq' |].
  destruct (host_waves_periodic_multiple tt
              (Host.Float (Host.binary 1 (-1)))
              (Host.Float (Host.binary (-11) (-1))) (Host.Int 1) (Host.Int 2)
              (1 / 2) 1 2 (-3) Ha) as (Hsq & _).
  apply (Hsq Hq Hq').
Defined.

(** X2. On ints and floats, the three waves depend on the time and the
    period only through their quotient: for a time of value [c t] and a
    period of value [c P] with [c] nonzero the value is the same, whenever
    the host evaluates the quotient without rounding for both pairs. *)
Theorem host_waves_scale_invariant {St : Type} (s : St)
  (t t' A P P' : Host.num) (c tr a pr : R) :
  Host.of_num A = Host.Fin a -> c <> 0 ->
  (Host.quotient2_exact t P tr pr ->
   Host.quotient2_exact t' P' (c * tr) (c * pr) ->
   Host.squarew (exact St) t' A P' s = Host.squarew (exact St) t A P s)
  /\ (Host.double_exact A a ->
      Host.phase_exact t P tr pr ->
      Host.phase_exact t' P' (c * tr) (c * pr) ->
      Host.trianglew (exact St) t' A P' s = Host.trianglew (exact St) t A P s)
  /\ (Host.quotient_exact t P tr pr ->
      Host.quotient_exact t' P' (c * tr) (c * pr) ->
      Host.sawtoothw (exact St) t' A P' s = Host.sawtoothw (exact St) t A P s).
Proof.
  intros Ha Hc. split; [| split].
  - intros Hq Hq'.
    rewrite (host_squarew_exact s t A P tr a pr Ha Hq).
    rewrite (host_squarew_exact s t' A P' _ a _ Ha Hq').
    destruct Hq as (_ & _ & Hpr & _).
    replace (2 * (c * tr) / (c * pr)) with (2 * tr / pr) by (field; tauto).
    reflexivity.
  - intros Hd Hy Hy'.
    rewrite (host_trianglew_exact s t A P tr a pr Hd Hy).
    rewrite (host_trianglew_exact s t' A P' _ a _ Hd Hy').
    destruct Hy as (_ & _ & Hpr & _).
    replace (c * tr / (c * pr)) with (tr / pr) by (field; tauto).
    reflexivity.
  - intros Hq Hq'.
    rewrite (host_sawtoothw_exact s t A P tr a pr Ha Hq).
    rewrite (host_sawtoothw_exact s t' A P' _ a _ Ha Hq').
    destruct Hq as (_ & _ & Hpr & _).
    replace (c * tr / (c * pr)) with (tr / pr) by (field; tauto).
    reflexivity.
Qed.

Lemma host_waves_scale_invariant_witness :
  Host.of_num (Host.Int 1) = Host.Fin 1 /\ -3 <> 0
  /\ Host.quotient_exact (Host.Float (Host.binary 1 (-1))) (Host.Int 2)
       (1 / 2) 2
  /\ Host.quotient_exact (Host.Float (Host.binary (-3) (-1))) (Host.Int (-6))
       (-3 * (1 / 2)) (-3 * 2)
  /\ Host.sawtoothw (exact unit) (Host.Float (Host.binary (-3) (-1)))
       (Host.Int 1) (Host.Int (-6)) tt
     = Host.sawtoothw (exact unit) (Host.Float (Host.binary 1 (-1)))
         (Host.Int 1) (Host.Int 2) tt.
Proof.
  assert (Ha : Host.of_num (Host.Int 1) = Host.Fin 1) by reflexivity.
  assert (Hc : -3 <> 0) by lra.
  assert (Hq : Host.quotient_exact (Host.Float (Host.binary 1 (-1)))
                 (Host.Int 2) (1 / 2) 2).
  { split; [lazy; host_value |]. split; [host_value |]. split; [lra |].
    eexists. split; [lazy; reflexivity | host_value]. }
  assert (Hq' : Host.quotient_exact (Host.Float (Host.binary (-3) (-1)))
                  (Host.Int (-6)) (-3 * (1 / 2)) (-3 * 2)).
  { split; [lazy; host_value |]. split; [host_value |]. split; [lra |].
    eexists. split; [lazy; reflexivity | host_value]. }
  split; [exact Ha |]. split; [exact Hc |]. split; [exact Hq |].
  split; [exact Hq' |].
  destruct (host_waves_scale_invariant tt
              (Host.Float (Host.binary 1 (-1)))
              (Host.Float (Host.binary (-3) (-1))) (Host.Int 1) (Host.Int 2)
              (Host.Int (-6)) (-3) (1 / 2) 1 2 Ha Hc) as (_ & _ & Hsaw).
  apply (Hsaw Hq Hq').
Defined.

(** X3. On ints and floats with the host quotient [2*t/P] unrounded at [t]
    and at [t'] of value [-t]: reversing the time negates the square wave,
    except on the transitions [t = k P / 2], where the value stays the
    same. *)
Theorem host_squarew_time_reversal {St : Type} (s : St)
  (t t' A P : Host.num) (tr a pr : R) :
  Host.of_num A = Host.Fin a ->
  Host.quotient2_exact t P tr pr ->
  Host.quotient2_exact t' P (- tr) pr ->
  ((forall k : Z, tr <> IZR k * pr / 2) ->
   exists r : R,
     Host.squarew (exact St) t A P s = (Return (Host.Fin r), s)
     /\ Host.squarew (exact St) t' A P s = (Return (Host.Fin (- r)), s))
  /\ (forall k : Z, tr = IZR k * pr / 2 ->
      Host.squarew (exact St) t' A P s = Host.squarew (exact St) t A P s).
Proof.
  intros Ha Hq Hq'.
  rewrite (host_squarew_exact s t A P tr a pr Ha Hq).
  rewrite (host_squarew_exact s t' A P _ a pr Ha Hq').
  destruct Hq as (_ & _ & Hpr & _).
  replace (2 * - tr / pr) with (- (2 * tr / pr)) by (field; assumption).
  split.
  - intros Ht. eexists. split; [reflexivity |].
    rewrite square_opp_off_transition
      by (apply off_transition_frac; assumption).
    do 3 f_equal. lra.
  - intros k ->.
    replace (2 * (IZR k * pr / 2) / pr) with (IZR k) by (field; assumption).
    rewrite <- opp_IZR, !ZfloorZ, pow_neg1_opp. reflexivity.
Qed.

Lemma host_squarew_time_reversal_witness :
  Host.of_num (Host.Int 1) = Host.Fin 1
  /\ Host.quotient2_exact (Host.Float (Host.binary 1 (-1))) (Host.Int 2)
       (1 / 2) 2
  /\ Host.quotient2_exact (Host.Float (Host.binary (-1) (-1))) (Host.Int 2)
       (- (1 / 2)) 2
  /\ (forall k : Z, 1 / 2 <> IZR k * 2 / 2)
  /\ exists r : R,
       Host.squarew (exact unit) (Host.Float (Host.binary 1 (-1)))
         (Host.Int 1) (Host.Int 2) tt
       = (Return (Host.Fin r), tt)
       /\ Host.squarew (exact unit) (Host.Float (Host.binary (-1) (-1)))
            (Host.Int 1) (Host.Int 2) tt
          = (Return (Host.Fin (- r)), tt).
Proof.
  assert (Ha : Host.of_num (Host.Int 1) = Host.Fin 1) by reflexivity.
  assert (Hq : Host.quotient2_exact (Host.Float (Host.binary 1 (-1)))
                 (Host.Int 2) (1 / 2) 2).
  { split; [lazy; host_value |]. split; [host_value |]. split; [lra |].
    eexists. split; [lazy; reflexivity | host_value]. }
  assert (Hq' : Host.quotient2_exact (Host.Float (Host.binary (-1) (-1)))
                  (Host.Int 2) (- (1 / 2)) 2).
  { split; [lazy; host_value |]. split; [host_value |]. split; [lra |].
    eexists. split; [lazy; reflexivity | host_value]. }
  assert (Ht : forall k : Z, 1 / 2 <> IZR k * 2 / 2).
  { intros k Hk.
    assert (E : IZR (2 * k) = IZR 1) by (rewrite mult_IZR; lra).
    apply eq_IZR in E. lia. }
  split; [exact Ha |]. split; [exact Hq |]. split; [exact Hq' |].
  split; [exact Ht |].
  apply (host_squarew_time_reversal tt _ _ _ _ _ _ _ Ha Hq Hq'). exact Ht.
Defined.

(** X4. On ints and floats with the host quotients [2*t/P] and [t/P]
    unrounded, for a period of either sign: the square wave is [A] while the
    unit sawtooth of the same period is below one half, and [-A] from one
    half on. *)
Theorem host_squarew_from_sawtoothw {St : Type} (s : St)
  (t A P : Host.num) (tr a pr : R) :
  Host.of_num A = Host.Fin a ->
  Host.quotient2_exact t P tr pr ->
  Host.quotient_exact t P tr pr ->
  exists f : R,
    Host.sawtoothw (exact St) t (Host.Int 1) P s = (Return (Host.Fin f), s)
    /\ (f < 1 / 2 ->
        Host.squarew (exact St) t A P s = (Return (Host.Fin a), s))
    /\ (1 / 2 <= f ->
        Host.squarew (exact St) t A P s = (Return (Host.Fin (- a)), s)).
Proof.
  intros Ha Hq2 Hq. exists (1 * Rfrac (tr / pr)).
  split; [apply (host_sawtoothw_exact s t (Host.Int 1) P tr 1 pr);
          [reflexivity | assumption] |].
  rewrite (host_squarew_exact s t A P tr a pr Ha Hq2).
  destruct Hq as (_ & _ & Hpr & _).
  replace (2 * tr / pr) with (2 * (tr / pr)) by (field; assumption).
  destruct (square_of_frac (tr / pr)) as [Hlow Hhigh].
  split; intros Hf.
  - rewrite Hlow by lra. do 3 f_equal. lra.
  - rewrite Hhigh by lra. do 3 f_equal. lra.
Qed.

Lemma host_squarew_from_sawtoothw_witness :
  Host.of_num (Host.Int 1) = Host.Fin 1
  /\ Host.quotient2_exact (Host.Float (Host.binary 1 (-1))) (Host.Int (-2))
       (1 / 2) (-2)
  /\ Host.quotient_exact (Host.Float (Host.binary 1 (-1))) (Host.Int (-2))
       (1 / 2) (-2)
  /\ exists f : R,
       Host.sawtoothw (exact unit) (Host.Float (Host.binary 1 (-1)))
         (Host.Int 1) (Host.Int (-2)) tt
       = (Return (Host.Fin f), tt)
       /\ (f < 1 / 2 ->
           Host.squarew (exact unit) (Host.Float (Host.binary 1 (-1)))
             (Host.Int 1) (Host.Int (-2)) tt
           = (Return (Host.Fin 1), tt))
       /\ (1 / 2 <= f ->
           Host.squarew (exact unit) (Host.Float (Host.binary 1 (-1)))
             (Host.Int 1) (Host.Int (-2)) tt
           = (Return (Host.Fin (- (1))), tt)).
Proof.
  assert (Ha : Host.of_num (Host.Int 1) = Host.Fin 1) by reflexivity.
  assert (Hq2 : Host.quotient2_exact (Host.Float (Host.binary 1 (-1)))
                  (Host.Int (-2)) (1 / 2) (-2)).
  { split; [lazy; host_value |]. split; [host_value |]. split; [lra |].
    eexists. split; [lazy; reflexivity | host_value]. }
  assert (Hq : Host.quotient_exact (Host.Float (Host.binary 1 (-1)))
                 (Host.Int (-2)) (1 / 2) (-2)).
  { split; [lazy; host_value |]. split; [host_value |]. split; [lra |].
    eexists. split; [lazy; reflexivity | host_value]. }
  split; [exact Ha |]. split; [exact Hq2 |]. split; [exact Hq |].
  apply (host_squarew_from_sawtoothw tt _ _ _ _ _ _ Ha Hq2 Hq).
Defined.

(** X5. On ints and floats with the host quotient [t/P] unrounded and a
    positive period, the sawtooth wave is the linear ramp [A (t - k P) / P]
    on every period [k P <= t < (k+1) P]. *)
Theorem host_sawtoothw_linear_ramp {St : Type} (s : St)
  (t A P : Host.num) (tr a pr : R) (k : Z) :
  Host.of_num A = Host.Fin a ->
  Host.quotient_exact t P tr pr ->
  0 < pr -> IZR k * pr <= tr < IZR k * pr + pr ->
  Host.sawtoothw (exact St) t A P s
  = (Return (Host.Fin (a * (tr - IZR k * pr) / pr)), s).
Proof.
  intros Ha Hq HP Ht.
  rewrite (host_sawtoothw_exact s t A P tr a pr Ha Hq).
  rewrite (frac_ramp tr pr k HP Ht). do 3 f_equal. field. lra.
Qed.

Lemma host_sawtoothw_linear_ramp_witness :
  Host.of_num (Host.Int 1) = Host.Fin 1
  /\ Host.quotient_exact (Host.Float (Host.binary (-1) (-1))) (Host.Int 2)
       (- (1 / 2)) 2
  /\ 0 < 2
  /\ IZR (-1) * 2 <= - (1 / 2) < IZR (-1) * 2 + 2
  /\ Host.sawtoothw (exact unit) (Host.Float (Host.binary (-1) (-1)))
       (Host.Int 1) (Host.Int 2) tt
     = (Return (Host.Fin (1 * (- (1 / 2) - IZR (-1) * 2) / 2)), tt).
Proof.
  assert (Ha : Host.of_num (Host.Int 1) = Host.Fin 1) by reflexivity.
  assert (Hq : Host.quotient_exact (Host.Float (Host.binary (-1) (-1)))
                 (Host.Int 2) (- (1 / 2)) 2).
  { split; [lazy; host_value |]. split; [host_value |]. split; [lra |].
    eexists. split; [lazy; reflexivity | host_value]. }
  assert (HP : 0 < 2) by lra.
  assert (Ht : IZR (-1) * 2 <= - (1 / 2) < IZR (-1) * 2 + 2) by lra.
  split; [exact Ha |]. split; [exact Hq |]. split; [exact HP |].
  split; [exact Ht |].
  apply (host_sawtoothw_linear_ramp tt _ _ _ _ _ _ (-1) Ha Hq HP Ht).
Defined.

(** X6. On ints and floats with the host quotient [t/P] unrounded at [t]
    and at [t'] of value [-t]: away from the period boundaries [t = k P],
    reversing the time turns the sawtooth value [r] into [A - r]. *)
Theorem host_sawtoothw_time_reversal {St : Type} (s : St)
  (t t' A P : Host.num) (tr a pr : R) :
  Host.of_num A = Host.Fin a ->
  Host.quotient_exact t P tr pr ->
  Host.quotient_exact t' P (- tr) pr ->
  (forall k : Z, tr <> IZR k * pr) ->
  exists r : R,
    Host.sawtoothw (exact St) t A P s = (Return (Host.Fin r), s)
    /\ Host.sawtoothw (exact St) t' A P s = (Return (Host.Fin (a - r)), s).
Proof.
  intros Ha Hq Hq' Ht. exists (a * Rfrac (tr / pr)).
  split; [apply (host_sawtoothw_exact s t A P tr a pr Ha Hq) |].
  rewrite (host_sawtoothw_exact s t' A P _ a pr Ha Hq').
  destruct Hq as (_ & _ & Hpr & _).
  replace (- tr / pr) with (- (tr / pr)) by (field; assumption).
  destruct (floor_frac_opp _ (off_boundary_frac tr pr Hpr Ht)) as [_ ->].
  do 3 f_equal. lra.
Qed.

Lemma host_sawtoothw_time_reversal_witness :
  Host.of_num (Host.Int 3) = Host.Fin 3
  /\ Host.quotient_exact (Host.Float (Host.binary 1 (-1))) (Host.Int 1)
       (1 / 2) 1
  /\ Host.quotient_exact (Host.Float (Host.binary (-1) (-1))) (Host.Int 1)
       (- (1 / 2)) 1
  /\ (forall k : Z, 1 / 2 <> IZR k * 1)
  /\ exists r : R,
       Host.sawtoothw (exact unit) (Host.Float (Host.binary 1 (-1)))
         (Host.Int 3) (Host.Int 1) tt
       = (Return (Host.Fin r), tt)
       /\ Host.sawtoothw (exact unit) (Host.Float (Host.binary (-1) (-1)))
            (Host.Int 3) (Host.Int 1) tt
          = (Return (Host.Fin (3 - r)), tt).
Proof.
  assert (Ha : Host.of_num (Host.Int 3) = Host.Fin 3) by reflexivity.
  assert (Hq : Host.quotient_exact (Host.Float (Host.binary 1 (-1)))
                 (Host.Int 1) (1 / 2) 1).
  { split; [lazy; host_value |]. split; [host_value |]. split; [lra |].
    eexists. split; [lazy; reflexivity | host_value]. }
  assert (Hq' : Host.quotient_exact (Host.Float (Host.binary (-1) (-1)))
                  (Host.Int 1) (- (1 / 2)) 1).
  { split; [lazy; host_value |]. split; [host_value |]. split; [lra |].
    eexists. split; [lazy; reflexivity | host_value]. }
  assert (Ht : forall k : Z, 1 / 2 <> IZR k * 1).
  { intros k Hk.
    assert (E : IZR (2 * k) = IZR 1) by (rewrite mult_IZR; lra).
    apply eq_IZR in E. lia. }
  split; [exact Ha |]. split; [exact Hq |]. split; [exact Hq' |].
  split; [exact Ht |].
  apply (host_sawtoothw_time_reversal tt _ _ _ _ _ _ _ Ha Hq Hq' Ht).
Defined.

(** X7. On ints and floats with [2*A] and [t/P + 0.25] unrounded at [t] and
    at [t'] of value [-t], the triangle wave is odd in the time: reversing
    the time negates the value. *)
Theorem host_trianglew_odd {St : Type} (s : St)
  (t t' A P : Host.num) (tr a pr : R) :
  Host.double_exact A a ->
  Host.phase_exact t P tr pr ->
  Host.phase_exact t' P (- tr) pr ->
  exists r : R,
    Host.trianglew (exact St) t A P s = (Return (Host.Fin r), s)
    /\ Host.trianglew (exact St) t' A P s = (Return (Host.Fin (- r)), s).
Proof.
  intros Hd Hy Hy'. eexists.
  split; [apply (host_trianglew_exact s t A P tr a pr Hd Hy) |].
  rewrite (host_trianglew_exact s t' A P _ a pr Hd Hy').
  destruct Hy as (_ & _ & Hpr & _).
  replace (- tr / pr) with (- (tr / pr)) by (field; assumption).
  replace (- (tr / pr) + 0.25) with (1 / 2 - (tr / pr + 0.25)) by lra.
  rewrite tooth_opp_half. do 3 f_equal.
  set (y := 0.5 - Rabs (1 - 2 * Rfrac (tr / pr + 0.25))). ring.
Qed.

Lemma host_trianglew_odd_witness :
  Host.double_exact (Host.Int 1) 1
  /\ Host.phase_exact (Host.Float (Host.binary 1 (-1))) (Host.Int 2)
       (1 / 2) 2
  /\ Host.phase_exact (Host.Float (Host.binary (-1) (-1))) (Host.Int 2)
       (- (1 / 2)) 2
  /\ exists r : R,
       Host.trianglew (exact unit) (Host.Float (Host.binary 1 (-1)))
         (Host.Int 1) (Host.Int 2) tt
       = (Return (Host.Fin r), tt)
       /\ Host.trianglew (exact unit) (Host.Float (Host.binary (-1) (-1)))
            (Host.Int 1) (Host.Int 2) tt
          = (Return (Host.Fin (- r)), tt).
Proof.
  assert (Hd : Host.double_exact (Host.Int 1) 1) by apply double_exact_int.
  assert (Hy : Host.phase_exact (Host.Float (Host.binary 1 (-1)))
                 (Host.Int 2) (1 / 2) 2).
  { split; [lazy; host_value |]. split; [host_value |]. split; [lra |].
    eexists. split; [lazy; reflexivity | host_value]. }
  assert (Hy' : Host.phase_exact (Host.Float (Host.binary (-1) (-1)))
                  (Host.Int 2) (- (1 / 2)) 2).
  { split; [lazy; host_value |]. split; [host_value |]. split; [lra |].
    eexists. split; [lazy; reflexivity | host_value]. }
  split; [exact Hd |]. split; [exact Hy |]. split; [exact Hy' |].
  apply (host_trianglew_odd tt _ _ _ _ _ _ _ Hd Hy Hy').
Defined.

(** X8. On ints and floats with [2*A] and [t/P + 0.25] unrounded at [t] and
    at [t'] of value [t + P/2], moving the time by half a period negates the
    triangle wave. *)
Theorem host_trianglew_half_period {St : Type} (s : St)
  (t t' A P : Host.num) (tr a pr : R) :
  Host.double_exact A a ->
  Host.phase_exact t P tr pr ->
  Host.phase_exact t' P (tr + pr / 2) pr ->
  exists r : R,
    Host.trianglew (exact St) t A P s = (Return (Host.Fin r), s)
    /\ Host.trianglew (exact St) t' A P s = (Return (Host.Fin (- r)), s).
Proof.
  intros Hd Hy Hy'. eexists.
  split; [apply (host_trianglew_exact s t A P tr a pr Hd Hy) |].
  rewrite (host_trianglew_exact s t' A P _ a pr Hd Hy').
  destruct Hy as (_ & _ & Hpr & _).
  replace ((tr + pr / 2) / pr) with (tr / pr + 1 / 2) by (field; assumption).
  replace (tr / pr + 1 / 2 + 0.25) with (tr / pr + 0.25 + 1 / 2) by lra.
  rewrite tooth_add_half. do 3 f_equal.
  set (y := 0.5 - Rabs (1 - 2 * Rfrac (tr / pr + 0.25))). ring.
Qed.

Lemma host_trianglew_half_period_witness :
  Host.double_exact (Host.Int 1) 1
  /\ Host.phase_exact (Host.Float (Host.binary 1 (-1))) (Host.Int 2)
       (1 / 2) 2
  /\ Host.phase_exact (Host.Float (Host.binary 3 (-1))) (Host.Int 2)
       (1 / 2 + 2 / 2) 2
  /\ exists r : R,
       Host.trianglew (exact unit) (Host.Float (Host.binary 1 (-1)))
         (Host.Int 1) (Host.Int 2) tt
       = (Return (Host.Fin r), tt)
       /\ Host.trianglew (exact unit) (Host.Float (Host.binary 3 (-1)))
            (Host.Int 1) (Host.Int 2) tt
          = (Return (Host.Fin (- r)), tt).
Proof.
  assert (Hd : Host.double_exact (Host.Int 1) 1) by apply double_exact_int.
  assert (Hy : Host.phase_exact (Host.Float (Host.binary 1 (-1)))
                 (Host.Int 2) (1 / 2) 2).
  { split; [lazy; host_value |]. split; [host_value |]. split; [lra |].
    eexists. split; [lazy; reflexivity | host_value]. }
  assert (Hy' : Host.phase_exact (Host.Float (Host.binary 3 (-1)))
                  (Host.Int 2) (1 / 2 + 2 / 2) 2).
  { split; [lazy; host_value |]. split; [host_value |]. split; [lra |].
    eexists. split; [lazy; reflexivity | host_value]. }
  split; [exact Hd |]. split; [exact Hy |]. split; [exact Hy' |].
  apply (host_trianglew_half_period tt _ _ _ _ _ _ _ Hd Hy Hy').
Defined.

(** X9. On ints and floats with [2*A] and [t/P + 0.25] unrounded and a
    positive period, the triangle wave is piecewise linear: it rises as
    [4 A (t - k P) / P] on [k P - P/4 <= t <= k P + P/4] and falls as
    [2 A - 4 A (t - k P) / P] on [k P + P/4 <= t <= k P + 3 P/4]. *)
Theorem host_trianglew_piecewise_linear {St : Type} (s : St)
  (t A P : Host.num) (tr a pr : R) :
  Host.double_exact A a ->
  Host.phase_exact t P tr pr ->
  0 < pr ->
  (forall k : Z, IZR k * pr - pr / 4 <= tr <= IZR k * pr + pr / 4 ->
   Host.trianglew (exact St) t A P s
   = (Return (Host.Fin (4 * a * (tr - IZR k * pr) / pr)), s))
  /\ (forall k : Z, IZR k * pr + pr / 4 <= tr <= IZR k * pr + 3 * pr / 4 ->
      Host.trianglew (exact St) t A P s
      = (Return (Host.Fin (2 * a - 4 * a * (tr - IZR k * pr) / pr)), s)).
Proof.
  intros Hd Hy HP. rewrite (host_trianglew_exact s t A P tr a pr Hd Hy).
  split; intros k Hk.
  - rewrite (tooth_rising tr pr k HP Hk). do 3 f_equal. field. lra.
  - rewrite (tooth_falling tr pr k HP Hk). do 3 f_equal. field. lra.
Qed.

Lemma host_trianglew_piecewise_linear_witness :
  Host.double_exact (Host.Int 1) 1
  /\ Host.phase_exact (Host.Int 1) (Host.Int 2) 1 2
  /\ 0 < 2
  /\ IZR 0 * 2 + 2 / 4 <= 1 <= IZR 0 * 2 + 3 * 2 / 4
  /\ Host.trianglew (exact unit) (Host.Int 1) (Host.Int 1) (Host.Int 2) tt
     = (Return (Host.Fin (2 * 1 - 4 * 1 * (1 - IZR 0 * 2) / 2)), tt).
Proof.
  assert (Hd : Host.double_exact (Host.Int 1) 1) by apply double_exact_int.
  assert (Hy : Host.phase_exact (Host.Int 1) (Host.Int 2) 1 2).
  { split; [host_value |]. split; [host_value |]. split; [lra |].
    eexists. split; [lazy; reflexivity | host_value]. }
  assert (HP : 0 < 2) by lra.
  assert (Ht : IZR 0 * 2 + 2 / 4 <= 1 <= IZR 0 * 2 + 3 * 2 / 4) by lra.
  split; [exact Hd |]. split; [exact Hy |]. split; [exact HP |].
  split; [exact Ht |].
  destruct (host_trianglew_piecewise_linear tt _ _ _ _ _ _ Hd Hy HP)
    as [_ Hfall].
  apply (Hfall 0%Z Ht).
Defined.

(** X10. On ints and floats with [2*A] unrounded and [t/P + 0.25] unrounded
    at two times, the values of the triangle wave differ by at most
    [4 |A| |t1 - t2| / |P|]. *)
Theorem host_trianglew_lipschitz {St : Type} (s : St)
  (t1 t2 A P : Host.num) (tr1 tr2 a pr : R) :
  Host.double_exact A a ->
  Host.phase_exact t1 P tr1 pr ->
  Host.phase_exact t2 P tr2 pr ->
  exists r1 r2 : R,
    Host.trianglew (exact St) t1 A P s = (Return (Host.Fin r1), s)
    /\ Host.trianglew (exact St) t2 A P s = (Return (Host.Fin r2), s)
    /\ Rabs (r1 - r2) <= 4 * Rabs a * Rabs (tr1 - tr2) / Rabs pr.
Proof.
  intros Hd Hy1 Hy2. do 2 eexists.
  split; [apply (host_trianglew_exact s t1 A P tr1 a pr Hd Hy1) |].
  split; [apply (host_trianglew_exact s t2 A P tr2 a pr Hd Hy2) |].
  destruct Hy1 as (_ & _ & Hpr & _).
  pose proof (tooth_difference tr1 tr2 pr Hpr) as HL.
  set (y1 := 0.5 - Rabs (1 - 2 * Rfrac (tr1 / pr + 0.25))) in *.
  set (y2 := 0.5 - Rabs (1 - 2 * Rfrac (tr2 / pr + 0.25))) in *.
  replace (2 * a * y1 - 2 * a * y2) with (2 * a * (y1 - y2)) by ring.
  rewrite Rabs_mult, Rabs_mult, (Rabs_pos_eq 2) by lra.
  unfold Rdiv in *. pose proof (Rabs_pos a) as Habs.
  set (d := Rabs (tr1 - tr2) * / Rabs pr) in *.
  replace (4 * Rabs a * Rabs (tr1 - tr2) * / Rabs pr) with (4 * Rabs a * d)
    by (unfold d; ring).
  replace (2 * Rabs (tr1 - tr2) * / Rabs pr) with (2 * d) in HL
    by (unfold d; ring).
  nra.
Qed.

Lemma host_trianglew_lipschitz_witness :
  Host.double_exact (Host.Int 1) 1
  /\ Host.phase_exact (Host.Float (Host.binary 1 (-1))) (Host.Int 2)
       (1 / 2) 2
  /\ Host.phase_exact (Host.Float (Host.binary 3 (-2))) (Host.Int 2)
       (3 / 4) 2
  /\ exists r1 r2 : R,
       Host.trianglew (exact unit) (Host.Float (Host.binary 1 (-1)))
         (Host.Int 1) (Host.Int 2) tt
       = (Return (Host.Fin r1), tt)
       /\ Host.trianglew (exact unit) (Host.Float (Host.binary 3 (-2)))
            (Host.Int 1) (Host.Int 2) tt
          = (Return (Host.Fin r2), tt)
       /\ Rabs (r1 - r2) <= 4 * Rabs 1 * Rabs (1 / 2 - 3 / 4) / Rabs 2.
Proof.
  assert (Hd : Host.double_exact (Host.Int 1) 1) by apply double_exact_int.
  assert (Hy1 : Host.phase_exact (Host.Float (Host.binary 1 (-1)))
                  (Host.Int 2) (1 / 2) 2).
  { split; [lazy; host_value |]. split; [host_value |]. split; [lra |].
    eexists. split; [lazy; reflexivity | host_value]. }
  assert (Hy2 : Host.phase_exact (Host.Float (Host.binary 3 (-2)))
                  (Host.Int 2) (3 / 4) 2).
  { split; [lazy; host_value |]. split; [host_value |]. split; [lra |].
    eexists. split; [lazy; reflexivity | host_value]. }
  split; [exact Hd |]. split; [exact Hy1 |]. split; [exact Hy2 |].
  apply (host_trianglew_lipschitz tt _ _ _ _ _ _ _ _ Hd Hy1 Hy2).
Defined.

(** X11. The pulse is even in the time. *)
Theorem unit_triangle_even {St : Type} (s : St) (t A : R) :
  unit_triangle (- t) A s = unit_triangle t A s.
Proof.
  apply unit_triangle_opp.
Qed.


(** X13. The sigmoid values at [t] and at [-t] add up to the amplitude. *)
Theorem sigmoidw_complement {St : Type} (s : St) (t A : R) :
  exists r : R,
    sigmoidw (exact St) t A s = (Return r, s)
    /\ sigmoidw (exact St) (- t) A s = (Return (A - r), s).
Proof.
  eexists. split; [apply run_sigmoidw | apply sigmoidw_opp].
Qed.

(** X14. The sigmoid does not fall when the time grows, for an amplitude
    that is not negative, and does not rise for one that is not positive. *)
Theorem sigmoidw_monotone {St : Type} (s : St) (t1 t2 A : R) :
  t1 <= t2 ->
  exists r1 r2 : R,
    sigmoidw (exact St) t1 A s = (Return r1, s)
    /\ sigmoidw (exact St) t2 A s = (Return r2, s)
    /\ (0 <= A -> r1 <= r2)
    /\ (A <= 0 -> r2 <= r1).
Proof.
  intros Ht. do 2 eexists.
  split; [apply run_sigmoidw |]. split; [apply run_sigmoidw |].
  assert (Hinc : / (1 + Rtrigo_def.exp (- t1))
                 <= / (1 + Rtrigo_def.exp (- t2))).
  { destruct Ht as [Hlt | ->]; [| apply Rle_refl].
    apply Rlt_le, logistic_increasing. assumption. }
  unfold Rdiv. split; intros HA; nra.
Qed.

Lemma sigmoidw_monotone_witness :
  0 <= 1
  /\ exists r1 r2 : R,
       sigmoidw (exact unit) 0 2 tt = (Return r1, tt)
       /\ sigmoidw (exact unit) 1 2 tt = (Return r2, tt)
       /\ (0 <= 2 -> r1 <= r2)
       /\ (2 <= 0 -> r2 <= r1).
Proof.
  assert (Ht : 0 <= 1) by lra.
  split; [exact Ht |].
  apply (sigmoidw_monotone tt 0 1 2 Ht).
Defined.



(** X16. The errors of Python's division, on ints and floats.  With an int
    time and the int period [0] the three waves raise [ZeroDivisionError].
    With a float period [0.0] or [-0.0] they raise [ZeroDivisionError] when
    the dividend converts to a float, and [OverflowError] when it is an int
    too large for a float: the operands are converted before the divisor is
    tested. *)
Theorem host_division_errors {St : Type} (ctx : Ctx.t St) (s : St)
  (A : Host.num) :
  (forall z : Z,
     Host.squarew ctx (Host.Int z) A (Host.Int 0) s
     = (Raise ZeroDivisionError, s)
     /\ Host.trianglew ctx (Host.Int z) A (Host.Int 0) s
        = (Raise ZeroDivisionError, s)
     /\ Host.sawtoothw ctx (Host.Int z) A (Host.Int 0) s
        = (Raise ZeroDivisionError, s))
  /\ (forall (t : Host.num) (sign : bool) (f : spec_float),
        Host.to_float t = Return f ->
        Host.trianglew ctx t A (Host.Float (S754_zero sign)) s
        = (Raise ZeroDivisionError, s)
        /\ Host.sawtoothw ctx t A (Host.Float (S754_zero sign)) s
           = (Raise ZeroDivisionError, s))
  /\ (forall (t : Host.num) (sign : bool),
        Host.to_float t = Raise OverflowError ->
        Host.trianglew ctx t A (Host.Float (S754_zero sign)) s
        = (Raise OverflowError, s)
        /\ Host.sawtoothw ctx t A (Host.Float (S754_zero sign)) s
           = (Raise OverflowError, s))
  /\ (forall (t p : Host.num) (sign : bool),
        Host.mul (Host.Int 2) t = Return p ->
        (forall f, Host.to_float p = Return f ->
         Host.squarew ctx t A (Host.Float (S754_zero sign)) s
         = (Raise ZeroDivisionError, s))
        /\ (Host.to_float p = Raise OverflowError ->
            Host.squarew ctx t A (Host.Float (S754_zero sign)) s
            = (Raise OverflowError, s))).
Proof.
  assert (Hdiv0 : forall (t : Host.num) (sign : bool) (f : spec_float),
             Host.to_float t = Return f ->
             Host.div t (Host.Float (S754_zero sign))
             = Raise ZeroDivisionError).
  { intros t sign f Hf. unfold Host.div.
    destruct t as [z | g]; rewrite Hf; reflexivity. }
  assert (Hdivo : forall (t : Host.num) (sign : bool),
             Host.to_float t = Raise OverflowError ->
             Host.div t (Host.Float (S754_zero sign)) = Raise OverflowError).
  { intros t sign Hf. unfold Host.div.
    destruct t as [z | g]; rewrite Hf; reflexivity. }
  assert (Hdouble : exists a2, Host.mul (Host.Int 2) A = Return a2).
  { destruct A as [z | g]; cbn; eexists; reflexivity. }
  destruct Hdouble as [a2 Ha2].
  split; [| split; [| split]].
  - intros z. split; [| split].
    + unfold Host.squarew, bind, Host.host. reflexivity.
    + unfold Host.trianglew, bind, Host.host. rewrite Ha2. reflexivity.
    + unfold Host.sawtoothw, bind, Host.host. reflexivity.
  - intros t sign f Hf. split.
    + unfold Host.trianglew, bind, Host.host.
      rewrite Ha2, (Hdiv0 t sign f Hf). reflexivity.
    + unfold Host.sawtoothw, bind, Host.host.
      rewrite (Hdiv0 t sign f Hf). reflexivity.
  - intros t sign Hf. split.
    + unfold Host.trianglew, bind, Host.host.
      rewrite Ha2, (Hdivo t sign Hf). reflexivity.
    + unfold Host.sawtoothw, bind, Host.host.
      rewrite (Hdivo t sign Hf). reflexivity.
  - intros t p sign Hp. split.
    + intros f Hf. unfold Host.squarew, bind, Host.host.
      rewrite Hp, (Hdiv0 p sign f Hf). reflexivity.
    + intros Hf. unfold Host.squarew, bind, Host.host.
      rewrite Hp, (Hdivo p sign Hf). reflexivity.
Qed.

Lemma host_division_errors_witness :
  Host.to_float (Host.Int (10 ^ 400)) = Raise OverflowError
  /\ Host.sawtoothw (exact unit) (Host.Int (10 ^ 400)) (Host.Int 1)
       (Host.Float (S754_zero false)) tt
     = (Raise OverflowError, tt).
Proof.
  assert (Hf : Host.to_float (Host.Int (10 ^ 400)) = Raise OverflowError)
    by (vm_compute; reflexivity).
  split; [exact Hf |].
  destruct (host_division_errors (exact unit) tt (Host.Int 1))
    as (_ & _ & Hover & _).
  apply (Hover (Host.Int (10 ^ 400)) false Hf).
Defined.

(** X17. Python's [/] on two ints does not round when the divisor divides
    the dividend and the quotient is below [2^53] in magnitude: for an int
    time and a nonzero int period the host evaluates [2*t/P] without
    rounding when [2 t = k P], and [t/P] when [t = k P], with [|k| < 2^53]. *)
Theorem host_int_quotients_exact (t p k : Z) :
  p <> 0%Z -> (Z.abs k < 2 ^ 53)%Z ->
  ((2 * t)%Z = (k * p)%Z ->
   Host.quotient2_exact (Host.Int t) (Host.Int p) (IZR t) (IZR p))
  /\ (t = (k * p)%Z ->
      Host.quotient_exact (Host.Int t) (Host.Int p) (IZR t) (IZR p)).
Proof.
  intros Hp Hk. split; intros Ht.
  - apply (int_quotient2_exact t p k Hp Hk Ht).
  - apply (int_quotient_exact t p k Hp Hk Ht).
Qed.

Lemma host_int_quotients_exact_witness :
  3%Z <> 0%Z /\ (Z.abs 5 < 2 ^ 53)%Z /\ 15%Z = (5 * 3)%Z
  /\ Host.quotient_exact (Host.Int 15) (Host.Int 3) (IZR 15) (IZR 3).
Proof.
  assert (Hp : 3%Z <> 0%Z) by lia.
  assert (Hk : (Z.abs 5 < 2 ^ 53)%Z) by (vm_compute; reflexivity).
  assert (Ht : 15%Z = (5 * 3)%Z) by reflexivity.
  split; [exact Hp |]. split; [exact Hk |]. split; [exact Ht |].
  apply (host_int_quotients_exact 15 3 5 Hp Hk). exact Ht.
Defined.

(** X18. On ints, without any assumption on the host arithmetic: for a
    nonzero int period that divides twice the time, [2 t = k P] with
    [|k| < 2^53], the square wave returns [A] when [k] is even and [-A] when
    [k] is odd; for a period that divides the time, [t = k P] with
    [|k| < 2^53], the sawtooth wave returns [0]. *)
Theorem host_waves_on_ints {St : Type} (s : St) (t A p k : Z) :
  p <> 0%Z -> (Z.abs k < 2 ^ 53)%Z ->
  ((2 * t)%Z = (k * p)%Z ->
   Host.squarew (exact St) (Host.Int t) (Host.Int A) (Host.Int p) s
   = (Return (Host.Fin (if Z.even k then IZR A else - IZR A)), s))
  /\ (t = (k * p)%Z ->
      Host.sawtoothw (exact St) (Host.Int t) (Host.Int A) (Host.Int p) s
      = (Return (Host.Fin 0), s)).
Proof.
  intros Hp Hk. split; intros Ht.
  - rewrite (host_squarew_exact s (Host.Int t) (Host.Int A) (Host.Int p)
               (IZR t) (IZR A) (IZR p) eq_refl
               (int_quotient2_exact t p k Hp Hk Ht)).
    rewrite (int_quotient2_value t p k Hp Ht), ZfloorZ, pow_neg1_parity.
    do 3 f_equal. destruct (Z.even k); lra.
  - rewrite (host_sawtoothw_exact s (Host.Int t) (Host.Int A) (Host.Int p)
               (IZR t) (IZR A) (IZR p) eq_refl
               (int_quotient_exact t p k Hp Hk Ht)).
    assert (Hpr : IZR p <> 0) by (apply not_0_IZR; assumption).
    rewrite Ht, mult_IZR.
    replace (IZR k * IZR p / IZR p) with (IZR k) by (field; assumption).
    rewrite Rfrac_IZR. do 3 f_equal. lra.
Qed.

Lemma host_waves_on_ints_witness :
  2%Z <> 0%Z /\ (Z.abs (-3) < 2 ^ 53)%Z /\ (2 * -3)%Z = (-3 * 2)%Z
  /\ Host.squarew (exact unit) (Host.Int (-3)) (Host.Int 7) (Host.Int 2) tt
     = (Return (Host.Fin (if Z.even (-3) then IZR 7 else - IZR 7)), tt).
Proof.
  assert (Hp : 2%Z <> 0%Z) by lia.
  assert (Hk : (Z.abs (-3) < 2 ^ 53)%Z) by (vm_compute; reflexivity).
  assert (Ht : (2 * -3)%Z = (-3 * 2)%Z) by reflexivity.
  split; [exact Hp |]. split; [exact Hk |]. split; [exact Ht |].
  apply (host_waves_on_ints tt (-3) 7 2 (-3) Hp Hk). exact Ht.
Defined.
